(** * import.py: restoring a spatial dump into PostGIS

    A shallow embedding of [import.py] (cazm0/gis_TPI).  The script is
    sequential glue around external tools, so the embedding is a small
    reader/writer/exception monad:

    - the reader part is a [World]: a snapshot of everything the script
      observes and does not control (what [shutil.which] and [glob.glob]
      answer, which files exist and what they contain, how every external
      command ends), together with the few pieces of the Python runtime
      that are tables rather than code (Unicode upper-casing,
      [os.path.join] of the platform);
    - the writer part is the list of [event]s the script performs, in
      order: every [print], every file-system query, every process it
      starts;
    - the exception part is Python's: [sys.exit] raises [SystemExit], an
      exception nobody catches ends the process with status 1.

    The snapshot is fixed for the duration of one run: asking the same
    question twice gives the same answer. *)

From Stdlib Require Import List Strings.String Strings.Ascii Strings.Byte ZArith NArith Bool Lia.
From Stdlib Require Import DecimalString.
Import ListNotations.

Local Open Scope string_scope.
Local Open Scope list_scope.

(** ** Python values used by the script *)

(** [bytes] are lists of bytes; a decoded [str] that the script upper-cases
    is a list of Unicode code points.  Every other [str] (paths, messages,
    captured error text) is only concatenated, sliced or searched for
    ASCII patterns and is kept as a UTF-8 [string]. *)
Definition bytes := list Byte.byte.
Definition text := list N.

Definition bytes_of_string (s : string) : bytes := list_byte_of_string s.
Definition text_of_ascii (s : string) : text :=
  map Byte.to_N (list_byte_of_string s).

Section ListSearch.
Context {A : Type} (eqb : A -> A -> bool).

(** [l.startswith(p)] *)
Fixpoint starts_with (p l : list A) : bool :=
  match p, l with
  | [], _ => true
  | _ :: _, [] => false
  | x :: p', y :: l' => eqb x y && starts_with p' l'
  end.

(** [p in l], for [bytes] and [str] *)
Fixpoint is_infix (p l : list A) : bool :=
  starts_with p l ||
  match l with
  | [] => false
  | _ :: l' => is_infix p l'
  end.

End ListSearch.

Definition bytes_startswith : bytes -> bytes -> bool := starts_with Byte.eqb.
Definition bytes_contains : bytes -> bytes -> bool := is_infix Byte.eqb.
Definition text_contains : text -> text -> bool := is_infix N.eqb.

(** [sub in s] on UTF-8 strings. *)
Definition str_contains (sub s : string) : bool :=
  match index 0 sub s with
  | Some _ => true
  | None => false
  end.

(** [s.find(sub, start)]: [None] stands for [-1]. *)
Definition str_find (sub s : string) (start : nat) : option nat :=
  index start sub s.

(** [s[i:j]] for [i <= j]. *)
Definition str_slice (s : string) (i j : nat) : string :=
  substring i (j - i) s.

Fixpoint char_in (c : ascii) (chars : string) : bool :=
  match chars with
  | EmptyString => false
  | String d r => Ascii.eqb c d || char_in c r
  end.

Fixpoint lstrip (chars s : string) : string :=
  match s with
  | EmptyString => EmptyString
  | String c r => if char_in c chars then lstrip chars r else s
  end.

Fixpoint rstrip (chars s : string) : string :=
  match s with
  | EmptyString => EmptyString
  | String c r =>
      match rstrip chars r with
      | EmptyString => if char_in c chars then EmptyString else String c EmptyString
      | r' => String c r'
      end
  end.

(** [s.strip(chars)] *)
Definition str_strip (chars s : string) : string :=
  rstrip chars (lstrip chars s).

(** Truthiness of a [str] and of an optional [str] ([None] and [""] are
    both false in a Python condition). *)
Definition nonempty (s : string) : bool :=
  match s with
  | EmptyString => false
  | String _ _ => true
  end.

Definition truthy (o : option string) : bool :=
  match o with
  | Some s => nonempty s
  | None => false
  end.

(** [str(n)] for an [int]. *)
Definition str_of_int (n : Z) : string := NilZero.string_of_int (Z.to_int n).

Definition nl : string := String (ascii_of_nat 10) EmptyString.

(** *** Reading a file as text

    [open(path, 'r', encoding='utf-8', errors='ignore')] decodes UTF-8 and
    drops what cannot be decoded; the default newline mode turns ["\r\n"]
    and a lone ["\r"] into ["\n"]. *)

Definition is_cont (b : N) : bool := ((128 <=? b) && (b <? 192))%N.

(** The decoder follows CPython's: an invalid start byte is skipped alone,
    an invalid continuation byte ends the sequence and only the bytes
    before it are skipped, and a sequence cut by the end of the data is
    dropped. *)
Fixpoint utf8_decode_ignore (bs : list N) : text :=
  match bs with
  | [] => []
  | b1 :: t1 =>
      if (b1 <? 128)%N then b1 :: utf8_decode_ignore t1
      else if (b1 <? 194)%N then utf8_decode_ignore t1
      else if (b1 <? 224)%N then
        match t1 with
        | [] => []
        | b2 :: t2 =>
            if is_cont b2
            then ((b1 - 192) * 64 + (b2 - 128))%N :: utf8_decode_ignore t2
            else utf8_decode_ignore t1
        end
      else if (b1 <? 240)%N then
        match t1 with
        | [] => []
        | b2 :: t2 =>
            if negb (is_cont b2)
               || (if (b2 <? 160)%N then (b1 =? 224)%N else (b1 =? 237)%N)
            then utf8_decode_ignore t1
            else
              match t2 with
              | [] => []
              | b3 :: t3 =>
                  if is_cont b3
                  then ((b1 - 224) * 4096 + (b2 - 128) * 64 + (b3 - 128))%N
                         :: utf8_decode_ignore t3
                  else utf8_decode_ignore t2
              end
        end
      else if (b1 <? 245)%N then
        match t1 with
        | [] => []
        | b2 :: t2 =>
            if negb (is_cont b2)
               || (if (b2 <? 144)%N then (b1 =? 240)%N else (b1 =? 244)%N)
            then utf8_decode_ignore t1
            else
              match t2 with
              | [] => []
              | b3 :: t3 =>
                  if negb (is_cont b3) then utf8_decode_ignore t2
                  else
                    match t3 with
                    | [] => []
                    | b4 :: t4 =>
                        if is_cont b4
                        then ((b1 - 240) * 262144 + (b2 - 128) * 4096
                              + (b3 - 128) * 64 + (b4 - 128))%N
                               :: utf8_decode_ignore t4
                        else utf8_decode_ignore t3
                    end
              end
        end
      else utf8_decode_ignore t1
  end.

Fixpoint universal_newlines (s : text) : text :=
  match s with
  | [] => []
  | c :: r =>
      if (c =? 13)%N then
        match r with
        | d :: r' =>
            if (d =? 10)%N then 10%N :: universal_newlines r'
            else 10%N :: universal_newlines r
        | [] => [10%N]
        end
      else c :: universal_newlines r
  end.

Definition decode_text (b : bytes) : text :=
  universal_newlines (utf8_decode_ignore (map Byte.to_N b)).

Definition ascii_upper (c : N) : N :=
  if ((97 <=? c) && (c <=? 122))%N then (c - 32)%N else c.

(** [matches.sort(reverse=True)] *)
Fixpoint insert_desc (x : string) (l : list string) : list string :=
  match l with
  | [] => [x]
  | y :: r => if String.leb y x then x :: l else y :: insert_desc x r
  end.

Definition sort_reverse (l : list string) : list string :=
  fold_right insert_desc [] l.

(** ** The world around one run *)

(** How an external command ends: it ran and left an exit status and
    error text, or it could not be started and [subprocess.run] raised. *)
Inductive run_answer : Type :=
| Completed (returncode : Z) (stderr : string)
| SpawnError (msg : string).

Record World : Type := {
  (* the platform and the tables of the Python runtime *)
  script_dir : string;                      (* os.path.dirname(os.path.abspath(__file__)) *)
  os_path_join : string -> string -> string;
  unicode_upper : N -> list N;              (* str.upper of one non-ASCII code point *)
  str_strip_ws : string -> string;          (* str.strip() *)
  (* the file system *)
  which : string -> option string;          (* shutil.which *)
  glob : string -> list string;             (* glob.glob *)
  path_exists : string -> bool;             (* os.path.exists *)
  isfile : string -> bool;                  (* os.path.isfile *)
  file_bytes : string -> option bytes;      (* None: open or read raises *)
  (* the external programs *)
  run_process : list string -> run_answer;  (* subprocess.run *)
  popen_process : list string -> option string; (* subprocess.Popen; Some msg: it raises *)
  browser_open : string -> bool             (* webbrowser.open *)
}.

Inductive stream : Type := Stdout | Stderr.
Inductive open_mode : Type := ReadBinary | ReadText.

(** What the script does, in order.  [EvRun] carries the command line and
    the variables added to the inherited environment. *)
Inductive event : Type :=
| EvPrint (s : stream) (msg : string)
| EvWhich (name : string)
| EvGlob (pattern : string)
| EvExists (path : string)
| EvIsFile (path : string)
| EvOpen (path : string) (mode : open_mode)
| EvRun (cmd : list string) (env : list (string * string))
| EvPopen (cmd : list string)
| EvWebOpen (url : string).

(** ** The monad *)

Inductive exn : Type :=
| SystemExit (code : Z)
| CalledProcessError (returncode : Z)
| OSError (msg : string)
| TypeError.

Inductive res (A : Type) : Type :=
| Val (a : A)
| Exc (e : exn).

Arguments Val {A} a.
Arguments Exc {A} e.

Definition M (A : Type) : Type := World -> list event * res A.

Definition ret {A} (a : A) : M A := fun _ => ([], Val a).

Definition bind {A B} (m : M A) (f : A -> M B) : M B :=
  fun w =>
    match m w with
    | (l1, Val a) => let (l2, r) := f a w in (l1 ++ l2, r)
    | (l1, Exc e) => (l1, Exc e)
    end.

Definition raise {A} (e : exn) : M A := fun _ => ([], Exc e).

(** [try: body except <catches> as e: handler e] *)
Definition try_except {A} (body : M A) (catches : exn -> bool)
  (handler : exn -> M A) : M A :=
  fun w =>
    match body w with
    | (l1, Val a) => (l1, Val a)
    | (l1, Exc e) =>
        if catches e then let (l2, r) := handler e w in (l1 ++ l2, r)
        else (l1, Exc e)
    end.

Declare Scope py_scope.
Delimit Scope py_scope with py.
Notation "x <- m ;; k" := (bind m (fun x => k))
  (at level 61, m at next level, right associativity) : py_scope.
Notation "m ;; k" := (bind m (fun _ => k))
  (at level 61, right associativity) : py_scope.
Local Open Scope py_scope.

(** [except Exception] lets [SystemExit] through; a bare [except] does not. *)
Definition is_Exception (e : exn) : bool :=
  match e with
  | SystemExit _ => false
  | _ => true
  end.

Definition any_exception (e : exn) : bool := true.

Definition is_CalledProcessError (e : exn) : bool :=
  match e with
  | CalledProcessError _ => true
  | _ => false
  end.

(** [str(e)] of the exceptions whose text the script prints.  Only
    [OSError] reaches an [except ... as e] that prints it. *)
Definition exn_str (e : exn) : string :=
  match e with
  | OSError msg => msg
  | SystemExit code => str_of_int code
  | CalledProcessError rc =>
      "Command returned non-zero exit status " ++ str_of_int rc ++ "."
  | TypeError => "expected str, bytes or os.PathLike object, not NoneType"
  end.

(** The status the operating system sees when the interpreter ends. *)
Definition exit_status {A} (r : res A) : Z :=
  match r with
  | Val _ => 0
  | Exc (SystemExit code) => code
  | Exc _ => 1
  end.

Definition log_of {A} (m : M A) (w : World) : list event := fst (m w).
Definition result_of {A} (m : M A) (w : World) : res A := snd (m w).

(** *** Primitive actions *)

Definition print (s : stream) (msg : string) : M unit :=
  fun _ => ([EvPrint s msg], Val tt).

Definition sys_exit {A} (code : Z) : M A := raise (SystemExit code).

Definition path_join (a b : string) : M string :=
  fun w => ([], Val (os_path_join w a b)).

Definition strip_ws (s : string) : M string :=
  fun w => ([], Val (str_strip_ws w s)).

Definition shutil_which (name : string) : M (option string) :=
  fun w => ([EvWhich name], Val (which w name)).

Definition glob_glob (pattern : string) : M (list string) :=
  fun w => ([EvGlob pattern], Val (glob w pattern)).

Definition os_path_exists (path : string) : M bool :=
  fun w => ([EvExists path], Val (path_exists w path)).

Definition os_path_isfile (path : string) : M bool :=
  fun w => ([EvIsFile path], Val (isfile w path)).

(** [with open(path, mode) as f: f.read(...)]: the whole content is handed
    over and the caller keeps the part it asked for. *)
Definition open_read (path : string) (mode : open_mode) : M bytes :=
  fun w =>
    ([EvOpen path mode],
     match file_bytes w path with
     | Some b => Val b
     | None => Exc (OSError "")
     end).

Record CompletedProcess : Type := {
  returncode : Z;
  stderr : string   (* read only where capture_output=True *)
}.

(** [subprocess.run(cmd, env=..., check=...)] *)
Definition subprocess_run (cmd : list string) (env : list (string * string))
  (check : bool) : M CompletedProcess :=
  fun w =>
    ([EvRun cmd env],
     match run_process w cmd with
     | SpawnError msg => Exc (OSError msg)
     | Completed rc err =>
         if check && negb (rc =? 0)%Z then Exc (CalledProcessError rc)
         else Val {| returncode := rc; stderr := err |}
     end).

(** A command line with [None] in it never reaches the operating system:
    [subprocess.run] raises [TypeError] while it prepares the arguments. *)
Fixpoint all_str (cmd : list (option string)) : option (list string) :=
  match cmd with
  | [] => Some []
  | Some s :: r =>
      match all_str r with
      | Some l => Some (s :: l)
      | None => None
      end
  | None :: _ => None
  end.

Definition subprocess_run_args (cmd : list (option string))
  (env : list (string * string)) (check : bool) : M CompletedProcess :=
  match all_str cmd with
  | Some l => subprocess_run l env check
  | None => raise TypeError
  end.

Definition subprocess_Popen (cmd : list string) : M unit :=
  fun w =>
    ([EvPopen cmd],
     match popen_process w cmd with
     | None => Val tt
     | Some msg => Exc (OSError msg)
     end).

Definition webbrowser_open (url : string) : M bool :=
  fun w => ([EvWebOpen url], Val (browser_open w url)).

(** [for x in l: body x] *)
Fixpoint for_each {A} (l : list A) (body : A -> M unit) : M unit :=
  match l with
  | [] => ret tt
  | x :: r => body x ;; for_each r body
  end.

(** ** The script *)

(** *** Configuration *)

Definition DB_HOST : string := "localhost".
Definition DB_PORT : string := "5433".
Definition DB_NAME : string := "geoserver".
Definition DB_USER : string := "postgres".
Definition DB_PASSWORD : string := "postgres".
Definition DB_SSLMODE : string := "disable".

Definition INPUT_FILENAME : string := "GisTPI".

(** [env = os.environ.copy(); env["PGPASSWORD"] = DB_PASSWORD] *)
Definition pg_env : list (string * string) := [("PGPASSWORD", DB_PASSWORD)].

(** *** Tools *)

Definition common_paths : list string :=
  [ "C:\Program Files\PostgreSQL\*\bin";
    "C:\Program Files (x86)\PostgreSQL\*\bin";
    "C:\OSGeo4W\bin";
    "C:\Program Files\QGIS*\bin" ].

(** The [for pattern in common_paths] loop of [find_executable], which
    returns from the function at the first pattern with a match. *)
Fixpoint search_common_paths (patterns : list string) (name : string)
  : M (option string) :=
  match patterns with
  | [] => ret None
  | pattern :: rest =>
      p <- path_join pattern (name ++ ".exe") ;;
      matches <- glob_glob p ;;
      match sort_reverse matches with
      | first :: _ => ret (Some first)
      | [] => search_common_paths rest name
      end
  end.

Definition find_executable (name : string) : M (option string) :=
  path <- shutil_which name ;;
  if truthy path then ret path
  else search_common_paths common_paths name.

(** The path of the PostgreSQL installation named in the error text, if
    one can be cut out of it. *)
Definition deduce_base_path (stderr_output : string) : option string :=
  if str_contains "PostgreSQL" stderr_output then
    let start_idx :=
      match str_find "C:/" stderr_output 0 with
      | Some i => Some i
      | None => str_find "C:\" stderr_output 0
      end in
    match start_idx with
    | Some i =>
        match str_find "share" stderr_output i with
        | Some j => Some (str_strip "/\ " (str_slice stderr_output i j))
        | None => None
        end
    | None => None
    end
  else None.

Definition STACKBUILDER_GLOB : string :=
  "C:\Program Files\PostgreSQL\*\bin\stackbuilder.exe".

Definition INSTALL_URL : string :=
  "https://www.postgis.net/documentation/getting_started/install_windows/".

Definition launch_stackbuilder_from_error (stderr_output : string) : M bool :=
  print Stdout (nl ++ "🕵️ Intentando localizar el instalador de PostGIS...") ;;
  let base_path := deduce_base_path stderr_output in
  stackbuilder_path <-
    match base_path with
    | Some bp =>
        if nonempty bp then
          bin <- path_join bp "bin" ;;
          candidate <- path_join bin "stackbuilder.exe" ;;
          e <- os_path_exists candidate ;;
          ret (if e then Some candidate else None)
        else ret None
    | None => ret None
    end ;;
  stackbuilder_path <-
    (if negb (truthy stackbuilder_path) then
       candidates <- glob_glob STACKBUILDER_GLOB ;;
       match candidates with
       | [] => ret stackbuilder_path
       | _ :: _ => ret (Some (last candidates ""))
       end
     else ret stackbuilder_path) ;;
  found <-
    match stackbuilder_path with
    | Some sp => if nonempty sp then os_path_exists sp else ret false
    | None => ret false
    end ;;
  if found then
    let sp := match stackbuilder_path with Some sp => sp | None => "" end in
    print Stdout ("✅ Instalador encontrado en: " ++ sp) ;;
    print Stdout "🚀 Lanzando Application Stack Builder..." ;;
    print Stdout "⚠️  ACCIÓN REQUERIDA POR EL USUARIO:" ;;
    print Stdout "   1. Se abrirá una ventana. Selecciona tu PostgreSQL en el menú desplegable." ;;
    print Stdout "   2. Dale a 'Next' hasta llegar a la lista de aplicaciones." ;;
    print Stdout "   3. Abre la rama 'Spatial Extensions'." ;;
    print Stdout "   4. Marca la casilla 'PostGIS X.X Bundle'." ;;
    print Stdout "   5. Sigue los pasos para instalar. Cuando termine, vuelve aquí y ejecuta este script de nuevo." ;;
    try_except
      (subprocess_Popen [sp] ;; ret true)
      is_Exception
      (fun e =>
         print Stdout ("❌ Error al intentar abrirlo: " ++ exn_str e) ;;
         ret false)
  else
    print Stdout "❌ No pude encontrar 'stackbuilder.exe'." ;;
    print Stdout "🌐 Abriendo página de descarga en el navegador..." ;;
    webbrowser_open INSTALL_URL ;;
    ret false.

(** *** Extension activation *)

Definition commands : list string :=
  [ "CREATE EXTENSION IF NOT EXISTS postgis CASCADE;";
    "CREATE EXTENSION IF NOT EXISTS postgis_topology;" ].

Definition activation_cmd (tool sql : string) : list string :=
  [tool; "-h"; DB_HOST; "-p"; DB_PORT; "-U"; DB_USER; "-d"; DB_NAME; "-c"; sql].

(** The test the activator applies to the error text of a failed statement. *)
Definition missing_postgis (err_msg : string) : bool :=
  str_contains "No such file or directory" err_msg
  && str_contains "postgis.control" err_msg.

Definition MSG_FALTA : string := nl ++ "🛑 FALTA POSTGIS EN EL SISTEMA.".

(** The body of the [for sql in commands] loop of [force_enable_postgis]. *)
Definition enable_extension (tool sql : string) : M unit :=
  let cmd := activation_cmd tool sql in
  try_except
    (result <- subprocess_run cmd pg_env false ;;
     if (returncode result =? 0)%Z then
       print Stdout ("✅ Ejecutado: " ++ sql)
     else
       let err_msg := stderr result in
       if missing_postgis err_msg then
         print Stderr MSG_FALTA ;;
         launch_stackbuilder_from_error err_msg ;;
         sys_exit 1
       else
         stripped <- strip_ws err_msg ;;
         print Stderr ("⚠️ Error SQL (ignorable si ya existe): " ++ stripped))
    is_Exception
    (fun e => print Stdout ("❌ Error intentando activar PostGIS: " ++ exn_str e)).

Definition MSG_PASO1 : string :=
  nl ++ "--- PASO 1: ACTIVANDO POSTGIS EN LA BASE DE DATOS ---".
Definition MSG_NO_PSQL_ACTIVATE : string :=
  "❌ No encuentro psql. No puedo activar PostGIS.".

(** Returns [False] when psql is missing and nothing ([None]) otherwise. *)
Definition force_enable_postgis : M (option bool) :=
  print Stdout MSG_PASO1 ;;
  tool <- find_executable "psql" ;;
  if truthy tool then
    let t := match tool with Some t => t | None => "" end in
    for_each commands (enable_extension t) ;;
    ret None
  else
    print Stderr MSG_NO_PSQL_ACTIVATE ;;
    ret (Some false).

(** *** Format detection *)

Inductive file_type : Type :=
| PG_DUMP_BINARY
| GEOPACKAGE
| SQL_SCRIPT
| UNKNOWN.

Definition file_type_str (t : file_type) : string :=
  match t with
  | PG_DUMP_BINARY => "PG_DUMP_BINARY"
  | GEOPACKAGE => "GEOPACKAGE"
  | SQL_SCRIPT => "SQL_SCRIPT"
  | UNKNOWN => "UNKNOWN"
  end.

Definition PGDMP : bytes := bytes_of_string "PGDMP".
Definition SQLITE_MAGIC : bytes := bytes_of_string "SQLite format 3".

(** [s.upper()] *)
Definition str_upper (w : World) (s : text) : text :=
  flat_map
    (fun c => if (c <? 128)%N then [ascii_upper c] else unicode_upper w c) s.

(** [f.read(100).upper()] on the file opened as text. *)
Definition text_start (w : World) (content : bytes) : text :=
  str_upper w (firstn 100 (decode_text content)).

Definition looks_like_sql (start : text) : bool :=
  text_contains (text_of_ascii "CREATE") start
  || text_contains (text_of_ascii "SET") start
  || text_contains (text_of_ascii "--") start.

Definition upper_start (content : bytes) : M text :=
  fun w => ([], Val (text_start w content)).

Definition detect_file_type (filepath : string) : M file_type :=
  try_except
    (content <- open_read filepath ReadBinary ;;
     let header := firstn 15 content in
     if bytes_startswith PGDMP header then ret PG_DUMP_BINARY
     else if bytes_contains SQLITE_MAGIC header then ret GEOPACKAGE
     else
       try_except
         (content <- open_read filepath ReadText ;;
          start <- upper_start content ;;
          if looks_like_sql start then ret SQL_SCRIPT else ret UNKNOWN)
         any_exception
         (fun _ => ret UNKNOWN))
    any_exception
    (fun _ => ret UNKNOWN).

(** *** Importers *)

Definition restore_cmd (tool filepath : string) : list string :=
  [tool; "-h"; DB_HOST; "-p"; DB_PORT; "-U"; DB_USER; "-d"; DB_NAME;
   "-v"; "-c"; "--if-exists"; "--no-owner"; "--no-acl"; filepath].

Definition MSG_PASO2_RESTORE : string :=
  nl ++ "--- PASO 2: IMPORTANDO ARCHIVO BINARIO (pg_restore) ---".
Definition MSG_NO_PG_RESTORE : string := "❌ ERROR: No encuentro 'pg_restore'.".
Definition MSG_RESTORE_DONE : string :=
  nl ++ "🎉 Proceso finalizado. Ignora advertencias menores si las tablas se crearon.".

Definition import_with_pg_restore (filepath : string) : M unit :=
  print Stdout MSG_PASO2_RESTORE ;;
  force_enable_postgis ;;
  tool <- find_executable "pg_restore" ;;
  if truthy tool then
    let t := match tool with Some t => t | None => "" end in
    let cmd := restore_cmd t filepath in
    print Stdout "Ejecutando restauración..." ;;
    try_except
      (subprocess_run cmd pg_env false ;;
       print Stdout MSG_RESTORE_DONE)
      is_Exception
      (fun e => print Stdout (nl ++ "⚠️ Error ejecutando pg_restore: " ++ exn_str e))
  else
    print Stderr MSG_NO_PG_RESTORE.

Definition script_cmd (tool filepath : string) : list string :=
  [tool; "-h"; DB_HOST; "-p"; DB_PORT; "-U"; DB_USER; "-d"; DB_NAME;
   "-f"; filepath].

Definition MSG_PASO2_SCRIPT : string := nl ++ "--- PASO 2: IMPORTANDO SCRIPT SQL ---".
Definition MSG_NO_PSQL : string := "❌ ERROR: No encuentro 'psql'.".
Definition MSG_SCRIPT_DONE : string := nl ++ "🎉 Importación SQL finalizada.".
Definition MSG_PSQL_FAILED (rc : Z) : string :=
  nl ++ "❌ Error ejecutando psql (Código " ++ str_of_int rc ++ ").".

Definition import_with_psql (filepath : string) : M unit :=
  print Stdout MSG_PASO2_SCRIPT ;;
  force_enable_postgis ;;
  tool <- find_executable "psql" ;;
  if truthy tool then
    let t := match tool with Some t => t | None => "" end in
    let cmd := script_cmd t filepath in
    try_except
      (subprocess_run cmd pg_env true ;;
       print Stdout MSG_SCRIPT_DONE)
      is_CalledProcessError
      (fun e =>
         match e with
         | CalledProcessError rc => print Stderr (MSG_PSQL_FAILED rc)
         | _ => ret tt
         end)
  else
    print Stderr MSG_NO_PSQL.

Definition OGR_DSN : string :=
  "PG:host=" ++ DB_HOST ++ " port=" ++ DB_PORT ++ " dbname=" ++ DB_NAME
  ++ " user=" ++ DB_USER ++ " password=" ++ DB_PASSWORD.

Definition ogr2ogr_args (filepath : string) : list string :=
  ["-f"; "PostgreSQL"; OGR_DSN; filepath; "-overwrite"; "-nln"; "GisTPI_import"].

Definition MSG_OGR2OGR : string := nl ++ "--- IMPORTANDO CON OGR2OGR ---".

(** No test on [tool] here: when ogr2ogr is not found the command line
    starts with [None]. *)
Definition import_with_ogr2ogr (filepath : string) : M unit :=
  print Stdout MSG_OGR2OGR ;;
  tool <- find_executable "ogr2ogr" ;;
  let cmd := tool :: map Some (ogr2ogr_args filepath) in
  subprocess_run_args cmd [] false ;;
  ret tt.

(** *** Execution *)

Definition resolve_input_file (filename_raw : string) : M (option string) :=
  fun w =>
    (path <- path_join (script_dir w) filename_raw ;;
     b <- os_path_isfile path ;;
     if b then ret (Some path) else ret None) w.

Definition MSG_START : string := "--- INICIANDO PROCESO DE RECUPERACIÓN ---".
Definition MSG_NO_INPUT : string :=
  "❌ No encuentro el archivo '" ++ INPUT_FILENAME ++ "'.".
Definition MSG_UNKNOWN : string := "⚠️ Formato desconocido, probando pg_restore...".

(** The [if]/[elif] chain at the end of the main block. *)
Definition dispatch (t : file_type) (input_path : string) : M unit :=
  match t with
  | PG_DUMP_BINARY => import_with_pg_restore input_path
  | SQL_SCRIPT => import_with_psql input_path
  | GEOPACKAGE => import_with_ogr2ogr input_path
  | UNKNOWN =>
      print Stdout MSG_UNKNOWN ;;
      import_with_pg_restore input_path
  end.

Definition main : M unit :=
  print Stdout MSG_START ;;
  input_path <- resolve_input_file INPUT_FILENAME ;;
  if truthy input_path then
    let p := match input_path with Some p => p | None => "" end in
    t <- detect_file_type p ;;
    print Stdout ("Tipo de archivo: " ++ file_type_str t) ;;
    dispatch t p
  else
    print Stderr MSG_NO_INPUT ;;
    sys_exit 1.

(** ** Reading runs *)

(** The command lines handed to [subprocess.run], in order. *)
Definition commands_run (log : list event) : list (list string) :=
  flat_map (fun e => match e with EvRun cmd _ => [cmd] | _ => [] end) log.

(** What [find_executable] answers in a world. *)
Definition lookup (w : World) (name : string) : option string :=
  match result_of (find_executable name) w with
  | Val o => o
  | Exc _ => None
  end.

(** The input file is found at [path]. *)
Definition input_found (w : World) (path : string) : Prop :=
  path = os_path_join w (script_dir w) INPUT_FILENAME
  /\ isfile w path = true
  /\ nonempty path = true.

(** A statement of the activator fails for want of the extension's files:
    psql ran, left a non-zero status and the error text has both marks. *)
Definition fatal (w : World) (tool sql : string) : bool :=
  match run_process w (activation_cmd tool sql) with
  | Completed rc err => negb (rc =? 0)%Z && missing_postgis err
  | SpawnError _ => false
  end.

(** The installer was started, or the browser was sent to the download page. *)
Definition recovery_action (e : event) : bool :=
  match e with
  | EvPopen _ => true
  | EvWebOpen _ => true
  | _ => false
  end.

(** ** Sample worlds *)

Definition SAMPLE_DIR : string := "/srv/gis".
Definition SAMPLE_INPUT : string := "/srv/gis/GisTPI".

(** A POSIX-like machine with the script in [/srv/gis], nothing in the
    fallback directories, no installer and a working browser. *)
Definition sample_world (content : option bytes)
  (tools : string -> option string) (answers : list string -> run_answer)
  : World :=
  {| script_dir := SAMPLE_DIR;
     os_path_join := fun a b => (a ++ "/" ++ b)%string;
     unicode_upper := fun c => [c];
     str_strip_ws := str_strip (" " ++ nl);
     which := tools;
     glob := fun _ => [];
     path_exists := fun _ => false;
     isfile :=
       fun p => match content with
                | Some _ => String.eqb p SAMPLE_INPUT
                | None => false
                end;
     file_bytes := fun p => if String.eqb p SAMPLE_INPUT then content else None;
     run_process := answers;
     popen_process := fun _ => Some "not started"%string;
     browser_open := fun _ => true |}.

(** Every tool is in [/usr/bin]; every tool but one. *)
Definition all_tools (name : string) : option string :=
  Some ("/usr/bin/" ++ name)%string.

Definition all_but (missing name : string) : option string :=
  if String.eqb name missing then None else all_tools name.

(** Every command succeeds silently. *)
Definition always_ok (cmd : list string) : run_answer := Completed 0 "".

(** ** Vocabulary of the statements

    Predicates on events and command lines, what the script's own
    functions answer in a world, and the worlds the statements are tried
    on. *)

(** A question to the file system about where a tool is. *)
Definition is_lookup_event (e : event) : bool :=
  match e with
  | EvWhich _ => true
  | EvGlob _ => true
  | _ => false
  end.

(** Every event of every run of [m] satisfies [P]. *)
Definition all_events (P : event -> bool) {A} (m : M A) : Prop :=
  forall w, forallb P (log_of m w) = true.

(** An exception that leaves [m] satisfies [Q]. *)
Definition raises_only (Q : exn -> bool) {A} (m : M A) : Prop :=
  forall w e, result_of m w = Exc e -> Q e = true.

(** No exception at all. *)
Definition no_exn (e : exn) : bool := false.

Definition never_raises {A} (m : M A) : Prop := raises_only no_exn m.

(** Every run of [m] has an event that satisfies [P]. *)
Definition some_event (P : event -> bool) {A} (m : M A) : Prop :=
  forall w, existsb P (log_of m w) = true.

(** Anything but a call of [subprocess.run]. *)
Definition not_a_run (e : event) : bool :=
  match e with
  | EvRun _ _ => false
  | _ => true
  end.

(** Equality of command lines. *)
Fixpoint strs_eqb (a b : list string) : bool :=
  match a, b with
  | [], [] => true
  | x :: a', y :: b' => String.eqb x y && strs_eqb a' b'
  | _, _ => false
  end.

(** The command line runs one SQL statement through psql ([-c]). *)
Definition is_activation_cmd (cmd : list string) : bool :=
  match cmd with
  | tool :: _ => strs_eqb cmd (activation_cmd tool (last cmd ""))
  | [] => false
  end.

(** An event the activator can perform: if it runs a command, the command
    is one of its statements. *)
Definition activator_event (e : event) : bool :=
  match e with
  | EvRun cmd _ => is_activation_cmd cmd
  | _ => true
  end.

(** [sys.exit(1)] and nothing else. *)
Definition is_exit_1 (e : exn) : bool :=
  match e with
  | SystemExit 1 => true
  | _ => false
  end.

(** What can be raised inside the [try] of the activator's loop. *)
Definition exit_1_or_Exception (e : exn) : bool := is_exit_1 e || is_Exception e.

(** The SQL error text of a statement psql ran. *)
Definition error_text (w : World) (tool sql : string) : string :=
  match run_process w (activation_cmd tool sql) with
  | Completed _ err => err
  | SpawnError _ => ""
  end.

(** The two statements of [commands], by name. *)
Definition SQL_POSTGIS : string :=
  "CREATE EXTENSION IF NOT EXISTS postgis CASCADE;".

Definition SQL_TOPOLOGY : string :=
  "CREATE EXTENSION IF NOT EXISTS postgis_topology;".

(** The input file is opened. *)
Definition is_open_event (e : event) : bool :=
  match e with
  | EvOpen _ _ => true
  | _ => false
  end.

(** What the detector answers in a world. *)
Definition detected (w : World) (path : string) : file_type :=
  match result_of (detect_file_type path) w with
  | Val t => t
  | Exc _ => UNKNOWN
  end.

(** The path of a tool that was found. *)
Definition found_at (tool : option string) : string :=
  match tool with
  | Some t => t
  | None => ""
  end.

(** Where the resolver looks, and what it answers. *)
Definition resolved_path (w : World) : string :=
  os_path_join w (script_dir w) INPUT_FILENAME.

Definition resolved (w : World) : option string :=
  if isfile w (resolved_path w) then Some (resolved_path w) else None.

(** The run ended with [sys.exit(1)] after the statement [sql]: it ran
    statements of the activator only, and the statement is followed by
    the recovery action and by no other command. *)
Definition stops_after_recovery (w : World) (tool sql : string)
  (log : list event) (r : res unit) : Prop :=
  r = Exc (SystemExit 1)
  /\ forallb is_activation_cmd (commands_run log) = true
  /\ exists pre post,
       log = pre ++ EvRun (activation_cmd tool sql) pg_env :: post
       /\ existsb recovery_action post = true
       /\ commands_run post = [].

(** With the input in place, a run is the preamble up to the line that
    names the format, then the importer chosen for it. *)
Definition preamble (w : World) (path : string) : list event :=
  EvPrint Stdout MSG_START :: EvIsFile path
    :: log_of (detect_file_type path) w
    ++ [EvPrint Stdout ("Tipo de archivo: " ++ file_type_str (detected w path))].

(** A world where the input is an SQL script, every tool is found, the
    activation succeeds and psql leaves status 3 on the script. *)
Definition script_fails_with_3 (cmd : list string) : run_answer :=
  if strs_eqb cmd (script_cmd "/usr/bin/psql" SAMPLE_INPUT)
  then Completed 3 "psql: error in script"
  else Completed 0 "".

Definition world_script_fails : World :=
  sample_world (Some (bytes_of_string "CREATE TABLE parcels (id integer);"))
    all_tools script_fails_with_3.

(** A world whose input has the SQLite magic one byte into the file. *)
Definition SHIFTED_SQLITE : bytes := bytes_of_string " SQLite format 3".

Definition world_shifted_sqlite : World :=
  sample_world (Some SHIFTED_SQLITE) all_tools always_ok.

(** A spatial package with every tool installed. *)
Definition world_geopackage : World :=
  sample_world (Some (bytes_of_string "SQLite format 3 and the pages"))
    all_tools always_ok.

(** An SQL script written in lower case. *)
Definition world_lowercase_script : World :=
  sample_world (Some (bytes_of_string "create table parcels (id integer);"))
    all_tools always_ok.

(** No file is opened. *)
Definition no_open_event (e : event) : bool := negb (is_open_event e).

(** No input file next to the script. *)
Definition world_no_input : World := sample_world None all_tools always_ok.

(** A binary dump: the marker and a payload. *)
Definition PGDMP_FILE : bytes := bytes_of_string "PGDMP and the archive".

(** A binary dump on a machine without psql. *)
Definition world_dump_without_psql : World :=
  sample_world (Some PGDMP_FILE) (all_but "psql") always_ok.

(** A binary dump with every tool installed and a database that accepts
    both statements. *)
Definition world_dump : World :=
  sample_world (Some PGDMP_FILE) all_tools always_ok.

(** A spatial package on a machine without ogr2ogr. *)
Definition world_geopackage_without_ogr2ogr : World :=
  sample_world (Some (bytes_of_string "SQLite format 3 and the pages"))
    (all_but "ogr2ogr") always_ok.

(** No trace of the activator: not its heading, not its search for psql,
    not one of its statements. *)
Definition not_activation_event (e : event) : bool :=
  match e with
  | EvRun cmd _ => negb (is_activation_cmd cmd)
  | EvPrint _ msg => negb (String.eqb msg MSG_PASO1)
  | EvWhich name => negb (String.eqb name "psql")
  | _ => true
  end.

(** Nothing is printed on the error stream. *)
Definition not_stderr (e : event) : bool :=
  match e with
  | EvPrint Stderr _ => false
  | _ => true
  end.

(** A script on a machine without psql. *)
Definition world_script_without_psql : World :=
  sample_world (Some (bytes_of_string "CREATE TABLE parcels (id integer);"))
    (all_but "psql") always_ok.

(** A binary dump on a machine where PostGIS was never installed: every
    statement psql is given fails on the missing control file. *)
Definition MISSING_CONTROL_FILE : string :=
  "ERROR: could not open extension control file C:/Program Files/PostgreSQL/17/share/extension/postgis.control: No such file or directory".

Definition world_without_postgis : World :=
  sample_world (Some PGDMP_FILE) all_tools
    (fun _ => Completed 1 MISSING_CONTROL_FILE).

(** *** Vocabulary and worlds of the further facts *)

(** Every run of [m] has exactly [n] events that satisfy [P]. *)
Definition count_events (P : event -> bool) {A} (m : M A) (n : nat) : Prop :=
  forall w, List.length (filter P (log_of m w)) = n.

Definition is_popen (e : event) : bool :=
  match e with
  | EvPopen _ => true
  | _ => false
  end.

Definition no_popen (e : event) : bool := negb (is_popen e).

(** An exception that ends the process with status 1. *)
Definition ends_with_status_1 (e : exn) : bool :=
  match e with
  | SystemExit code => (code =? 1)%Z
  | _ => true
  end.

(** The environment carries the password. *)
Definition env_is_pg (env : list (string * string)) : bool :=
  match env with
  | [(k, v)] => String.eqb k "PGPASSWORD" && String.eqb v "postgres"
  | _ => false
  end.

Definition env_is_inherited (env : list (string * string)) : bool :=
  match env with
  | [] => true
  | _ :: _ => false
  end.

(** One of the four command lines of the script, on the input [path]. *)
Definition known_command (path : string) (cmd : list string)
  (env : list (string * string)) : bool :=
  match cmd with
  | tool :: _ =>
      env_is_pg env
      && (strs_eqb cmd (activation_cmd tool SQL_POSTGIS)
          || strs_eqb cmd (activation_cmd tool SQL_TOPOLOGY)
          || strs_eqb cmd (restore_cmd tool path)
          || strs_eqb cmd (script_cmd tool path))
      || env_is_inherited env && strs_eqb cmd (tool :: ogr2ogr_args path)
  | [] => false
  end.

Definition known_event (path : string) (e : event) : bool :=
  match e with
  | EvRun cmd env => known_command path cmd env
  | EvOpen p _ => String.eqb p path
  | _ => true
  end.

Definition MSG_RESTORE_FAILED (msg : string) : string :=
  nl ++ "⚠️ Error ejecutando pg_restore: " ++ msg.

(** The line the restore ends on: the same for every exit status. *)
Definition restore_epilogue (a : run_answer) : string :=
  match a with
  | Completed _ _ => MSG_RESTORE_DONE
  | SpawnError msg => MSG_RESTORE_FAILED msg
  end.

(** The binary-dump branch and the fallback for an unknown format. *)
Definition restores (t : file_type) : Prop := t = PG_DUMP_BINARY \/ t = UNKNOWN.

(** Where the installer is, under the installation [bp]. *)
Definition installer_under (w : World) (bp : string) : string :=
  os_path_join w (os_path_join w bp "bin") "stackbuilder.exe".

(** The error text leads to no installer: no path can be cut out of it,
    or there is no installer under the path. *)
Definition no_installer_named (w : World) (stderr_output : string) : Prop :=
  forall bp,
    deduce_base_path stderr_output = Some bp ->
    path_exists w (installer_under w bp) = false.

(** A Windows machine with nothing on the search path and no input
    file: what [glob] matches and which paths exist are given, every
    program can be started. *)
Definition windows_world (matches : string -> list string)
  (present : string -> bool) : World :=
  {| script_dir := "C:\gis";
     os_path_join := fun a b => (a ++ "\" ++ b)%string;
     unicode_upper := fun c => [c];
     str_strip_ws := str_strip (" " ++ nl);
     which := fun _ => None;
     glob := matches;
     path_exists := present;
     isfile := fun _ => false;
     file_bytes := fun _ => None;
     run_process := always_ok;
     popen_process := fun _ => None;
     browser_open := fun _ => true |}.

(** Three PostgreSQL installations under [Program Files (x86)]. *)
Definition WINDOWS_PSQL_GLOB : string :=
  "C:\Program Files (x86)\PostgreSQL\*\bin\psql.exe".

Definition world_windows : World :=
  windows_world
    (fun p =>
       if String.eqb p WINDOWS_PSQL_GLOB
       then [ "C:\Program Files (x86)\PostgreSQL\15\bin\psql.exe";
              "C:\Program Files (x86)\PostgreSQL\17\bin\psql.exe";
              "C:\Program Files (x86)\PostgreSQL\16\bin\psql.exe" ]
       else [])
    (fun _ => false).

(** The installer is where the error text of [MISSING_CONTROL_FILE]
    says PostgreSQL is. *)
Definition NAMED_INSTALLER : string :=
  "C:/Program Files/PostgreSQL/17\bin\stackbuilder.exe".

Definition world_installer_named : World :=
  windows_world (fun _ => []) (String.eqb NAMED_INSTALLER).

(** Two installers on the disk, neither where the error text points. *)
Definition SEARCHED_INSTALLER : string :=
  "C:\Program Files\PostgreSQL\16\bin\stackbuilder.exe".

Definition world_installer_searched : World :=
  windows_world
    (fun p =>
       if String.eqb p STACKBUILDER_GLOB
       then [ "C:\Program Files\PostgreSQL\17\bin\stackbuilder.exe";
              SEARCHED_INSTALLER ]
       else [])
    (String.eqb SEARCHED_INSTALLER).

(** The same machine as [w], with the input in place but not readable. *)
Definition unreadable_input (w : World) : World :=
  {| script_dir := script_dir w;
     os_path_join := os_path_join w;
     unicode_upper := unicode_upper w;
     str_strip_ws := str_strip_ws w;
     which := which w;
     glob := glob w;
     path_exists := path_exists w;
     isfile := fun p => String.eqb p SAMPLE_INPUT;
     file_bytes := fun _ => None;
     run_process := run_process w;
     popen_process := popen_process w;
     browser_open := browser_open w |}.

Definition world_unreadable_input : World := unreadable_input world_dump.

(** An empty input file. *)
Definition world_empty_input : World :=
  sample_world (Some []) all_tools always_ok.

(** A binary dump that pg_restore rejects. *)
Definition restore_fails_with_1 (cmd : list string) : run_answer :=
  if strs_eqb cmd (restore_cmd "/usr/bin/pg_restore" SAMPLE_INPUT)
  then Completed 1 "pg_restore: error: could not read the archive"
  else Completed 0 "".

Definition world_restore_fails : World :=
  sample_world (Some PGDMP_FILE) all_tools restore_fails_with_1.

(** A binary dump on a machine without pg_restore. *)
Definition world_dump_without_pg_restore : World :=
  sample_world (Some PGDMP_FILE) (all_but "pg_restore") always_ok.

(** An SQL script on a machine where psql cannot be started on it. *)
Definition script_not_started (cmd : list string) : run_answer :=
  if strs_eqb cmd (script_cmd "/usr/bin/psql" SAMPLE_INPUT)
  then SpawnError "[Errno 13] Permission denied"
  else Completed 0 "".

Definition world_script_not_started : World :=
  sample_world (Some (bytes_of_string "CREATE TABLE parcels (id integer);"))
    all_tools script_not_started.

(** A spatial package that ogr2ogr rejects. *)
Definition world_conversion_fails : World :=
  sample_world (Some (bytes_of_string "SQLite format 3 and the pages"))
    all_tools (fun _ => Completed 1 "ERROR 1: unable to connect").

(** An SQL script, every tool installed, every command succeeds. *)
Definition world_script : World :=
  sample_world (Some (bytes_of_string "CREATE TABLE parcels (id integer);"))
    all_tools always_ok.

(** ** Laws of the monad *)

Section Laws.
Context {A B : Type}.
Implicit Types (m : M A) (f : A -> M B) (w : World).

Lemma log_bind m f w :
  log_of (bind m f) w =
  log_of m w ++ match result_of m w with
                | Val a => log_of (f a) w
                | Exc _ => []
                end.
Proof.
  unfold log_of, result_of, bind.
  destruct (m w) as [l1 [a | e]]; simpl.
  - destruct (f a w); reflexivity.
  - now rewrite app_nil_r.
Qed.

Lemma result_bind m f w :
  result_of (bind m f) w =
  match result_of m w with
  | Val a => result_of (f a) w
  | Exc e => Exc e
  end.
Proof.
  unfold result_of, bind.
  destruct (m w) as [l1 [a | e]]; simpl; [destruct (f a w) |]; reflexivity.
Qed.

Lemma log_try_except m c (h : exn -> M A) w :
  log_of (try_except m c h) w =
  log_of m w ++ match result_of m w with
                | Val _ => []
                | Exc e => if c e then log_of (h e) w else []
                end.
Proof.
  unfold log_of, result_of, try_except.
  destruct (m w) as [l1 [a | e]]; simpl.
  - now rewrite app_nil_r.
  - destruct (c e); [destruct (h e w) | rewrite app_nil_r]; reflexivity.
Qed.

Lemma result_try_except m c (h : exn -> M A) w :
  result_of (try_except m c h) w =
  match result_of m w with
  | Val a => Val a
  | Exc e => if c e then result_of (h e) w else Exc e
  end.
Proof.
  unfold result_of, try_except.
  destruct (m w) as [l1 [a | e]]; simpl; auto.
  destruct (c e); [destruct (h e w) |]; reflexivity.
Qed.

End Laws.

Lemma run_eq {A} (m : M A) w : m w = (log_of m w, result_of m w).
Proof. unfold log_of, result_of. now destruct (m w). Qed.

Lemma commands_run_app l1 l2 :
  commands_run (l1 ++ l2) = commands_run l1 ++ commands_run l2.
Proof. apply flat_map_app. Qed.

Lemma commands_run_cons_print s msg l :
  commands_run (EvPrint s msg :: l) = commands_run l.
Proof. reflexivity. Qed.

Section Primitives.
Implicit Types (w : World).

Lemma log_ret {A} (a : A) w : log_of (ret a) w = [].
Proof. reflexivity. Qed.
Lemma result_ret {A} (a : A) w : result_of (ret a) w = Val a.
Proof. reflexivity. Qed.
Lemma log_raise {A} e w : log_of (@raise A e) w = [].
Proof. reflexivity. Qed.
Lemma result_raise {A} e w : result_of (@raise A e) w = Exc e.
Proof. reflexivity. Qed.
Lemma log_sys_exit {A} n w : log_of (@sys_exit A n) w = [].
Proof. reflexivity. Qed.
Lemma result_sys_exit {A} n w : result_of (@sys_exit A n) w = Exc (SystemExit n).
Proof. reflexivity. Qed.
Lemma log_print s msg w : log_of (print s msg) w = [EvPrint s msg].
Proof. reflexivity. Qed.
Lemma result_print s msg w : result_of (print s msg) w = Val tt.
Proof. reflexivity. Qed.
Lemma log_path_join a b w : log_of (path_join a b) w = [].
Proof. reflexivity. Qed.
Lemma result_path_join a b w :
  result_of (path_join a b) w = Val (os_path_join w a b).
Proof. reflexivity. Qed.
Lemma log_strip_ws s w : log_of (strip_ws s) w = [].
Proof. reflexivity. Qed.
Lemma result_strip_ws s w : result_of (strip_ws s) w = Val (str_strip_ws w s).
Proof. reflexivity. Qed.
Lemma log_which n w : log_of (shutil_which n) w = [EvWhich n].
Proof. reflexivity. Qed.
Lemma result_which n w : result_of (shutil_which n) w = Val (which w n).
Proof. reflexivity. Qed.
Lemma log_glob p w : log_of (glob_glob p) w = [EvGlob p].
Proof. reflexivity. Qed.
Lemma result_glob p w : result_of (glob_glob p) w = Val (glob w p).
Proof. reflexivity. Qed.
Lemma log_exists p w : log_of (os_path_exists p) w = [EvExists p].
Proof. reflexivity. Qed.
Lemma result_exists p w : result_of (os_path_exists p) w = Val (path_exists w p).
Proof. reflexivity. Qed.
Lemma log_isfile p w : log_of (os_path_isfile p) w = [EvIsFile p].
Proof. reflexivity. Qed.
Lemma result_isfile p w : result_of (os_path_isfile p) w = Val (isfile w p).
Proof. reflexivity. Qed.
Lemma log_open p mode w : log_of (open_read p mode) w = [EvOpen p mode].
Proof. reflexivity. Qed.
Lemma result_open p mode w :
  result_of (open_read p mode) w =
  match file_bytes w p with
  | Some b => Val b
  | None => Exc (OSError "")
  end.
Proof. reflexivity. Qed.
Lemma log_upper_start b w : log_of (upper_start b) w = [].
Proof. reflexivity. Qed.
Lemma result_upper_start b w : result_of (upper_start b) w = Val (text_start w b).
Proof. reflexivity. Qed.
Lemma log_run cmd env check w :
  log_of (subprocess_run cmd env check) w = [EvRun cmd env].
Proof. reflexivity. Qed.
Lemma result_run cmd env check w :
  result_of (subprocess_run cmd env check) w =
  match run_process w cmd with
  | SpawnError msg => Exc (OSError msg)
  | Completed rc err =>
      if check && negb (rc =? 0)%Z then Exc (CalledProcessError rc)
      else Val {| returncode := rc; stderr := err |}
  end.
Proof. reflexivity. Qed.
Lemma log_popen cmd w : log_of (subprocess_Popen cmd) w = [EvPopen cmd].
Proof. reflexivity. Qed.
Lemma result_popen cmd w :
  result_of (subprocess_Popen cmd) w =
  match popen_process w cmd with
  | None => Val tt
  | Some msg => Exc (OSError msg)
  end.
Proof. reflexivity. Qed.
Lemma log_webopen url w : log_of (webbrowser_open url) w = [EvWebOpen url].
Proof. reflexivity. Qed.
Lemma result_webopen url w :
  result_of (webbrowser_open url) w = Val (browser_open w url).
Proof. reflexivity. Qed.

End Primitives.

Create Rewrite HintDb run.

#[local] Hint Rewrite
  @log_bind @result_bind @log_try_except @result_try_except
  @log_ret @result_ret @log_raise @result_raise @log_sys_exit @result_sys_exit
  log_print result_print log_path_join result_path_join
  log_strip_ws result_strip_ws log_which result_which log_glob result_glob
  log_exists result_exists log_isfile result_isfile log_open result_open
  log_upper_start result_upper_start log_run result_run
  log_popen result_popen log_webopen result_webopen : run.

(** Unfolding a run step by step: rewrite with the laws, then reduce the
    matches whose scrutinee has become a value. *)
Ltac run_step :=
  repeat (progress (autorewrite with run; cbv beta iota;
                    cbn [andb orb negb app returncode stderr
                         is_Exception any_exception is_CalledProcessError];
                    rewrite ?app_nil_r)).

(** ** Looking for a tool *)

Lemma lookups_run_nothing l :
  forallb is_lookup_event l = true -> commands_run l = [].
Proof.
  induction l as [| e l IH]; simpl; auto.
  intros H. apply andb_true_iff in H as [He Hl].
  destruct e; try discriminate; simpl; auto.
Qed.

Lemma lookups_print_nothing l s msg :
  forallb is_lookup_event l = true -> ~ In (EvPrint s msg) l.
Proof.
  intros H Hin. rewrite forallb_forall in H. now apply H in Hin.
Qed.

Lemma search_common_paths_spec ps name w :
  (exists o, result_of (search_common_paths ps name) w = Val o)
  /\ forallb is_lookup_event (log_of (search_common_paths ps name) w) = true.
Proof.
  induction ps as [| p ps [[o Ho] Hl]]; simpl.
  - split; [now exists None | reflexivity].
  - run_step.
    destruct (sort_reverse _) as [| first rest]; run_step.
    + split; [now exists o | exact Hl].
    + split; [now exists (Some first) | reflexivity].
Qed.

Lemma search_common_paths_none ps name w :
  (forall p, In p ps -> glob w (os_path_join w p (name ++ ".exe")) = []) ->
  result_of (search_common_paths ps name) w = Val None.
Proof.
  induction ps as [| p ps IH]; intros H; simpl; auto.
  run_step. rewrite (H p (or_introl eq_refl)). simpl.
  apply IH. intros q Hq. apply H. now right.
Qed.

Lemma find_executable_val name w :
  result_of (find_executable name) w = Val (lookup w name).
Proof.
  unfold lookup, find_executable. run_step.
  destruct (truthy (which w name)); run_step; auto.
  destruct (search_common_paths_spec common_paths name w) as [[o Ho] _].
  now rewrite Ho.
Qed.

Lemma find_executable_log name w :
  forallb is_lookup_event (log_of (find_executable name) w) = true.
Proof.
  unfold find_executable. run_step.
  destruct (truthy (which w name)); run_step; auto.
  apply (proj2 (search_common_paths_spec common_paths name w)).
Qed.

Lemma find_executable_runs_nothing name w :
  commands_run (log_of (find_executable name) w) = [].
Proof. apply lookups_run_nothing, find_executable_log. Qed.

(** The tool is on the search path. *)
Lemma lookup_on_path name w p :
  which w name = Some p -> nonempty p = true -> lookup w name = Some p.
Proof.
  intros Hw Hp. unfold lookup, find_executable. run_step.
  rewrite Hw. simpl. rewrite Hp. now run_step.
Qed.

(** The tool is neither on the search path nor in a fallback directory. *)
Lemma lookup_nowhere name w :
  truthy (which w name) = false ->
  (forall p, In p common_paths ->
             glob w (os_path_join w p (name ++ ".exe")) = []) ->
  lookup w name = None.
Proof.
  intros Hw Hg. unfold lookup, find_executable. run_step.
  rewrite Hw. now rewrite search_common_paths_none.
Qed.

(** ** A small program logic

    Facts that hold of every run of a piece of the script, whatever the
    world answers, follow the structure of the code: what kind of events
    it can perform ([all_events]), which exceptions can leave it
    ([raises_only]), and which event it is bound to perform
    ([some_event]). *)

Lemma never_raises_val {A} (m : M A) w :
  never_raises m -> exists a, result_of m w = Val a.
Proof.
  intros H. destruct (result_of m w) as [a | e] eqn:E; eauto.
  now apply H in E.
Qed.

Section AllEvents.
Context (P : event -> bool).

Lemma all_events_ret {A} (a : A) : all_events P (ret a).
Proof. now intros w. Qed.

Lemma all_events_raise {A} e : all_events P (@raise A e).
Proof. now intros w. Qed.

Lemma all_events_sys_exit {A} n : all_events P (@sys_exit A n).
Proof. now intros w. Qed.

Lemma all_events_bind {A B} (m : M A) (f : A -> M B) :
  all_events P m -> (forall a, all_events P (f a)) -> all_events P (bind m f).
Proof.
  intros Hm Hf w. rewrite log_bind, forallb_app, Hm.
  destruct (result_of m w); simpl; auto. apply Hf.
Qed.

Lemma all_events_try {A} (m : M A) c (h : exn -> M A) :
  all_events P m -> (forall e, all_events P (h e)) ->
  all_events P (try_except m c h).
Proof.
  intros Hm Hh w. rewrite log_try_except, forallb_app, Hm.
  destruct (result_of m w) as [a | e]; simpl; auto.
  destruct (c e); auto. apply Hh.
Qed.

Lemma all_events_for_each {A} (l : list A) (body : A -> M unit) :
  (forall a, all_events P (body a)) -> all_events P (for_each l body).
Proof.
  intros H. induction l; simpl.
  - apply all_events_ret.
  - apply all_events_bind; auto.
Qed.

Lemma all_events_path_join a b : all_events P (path_join a b).
Proof. now intros w. Qed.

Lemma all_events_strip_ws s : all_events P (strip_ws s).
Proof. now intros w. Qed.

Lemma all_events_upper_start b : all_events P (upper_start b).
Proof. now intros w. Qed.

Lemma all_events_print s msg :
  P (EvPrint s msg) = true -> all_events P (print s msg).
Proof. intros H w. simpl. now rewrite H. Qed.

Lemma all_events_which n : P (EvWhich n) = true -> all_events P (shutil_which n).
Proof. intros H w. simpl. now rewrite H. Qed.

Lemma all_events_glob p : P (EvGlob p) = true -> all_events P (glob_glob p).
Proof. intros H w. simpl. now rewrite H. Qed.

Lemma all_events_exists p :
  P (EvExists p) = true -> all_events P (os_path_exists p).
Proof. intros H w. simpl. now rewrite H. Qed.

Lemma all_events_isfile p :
  P (EvIsFile p) = true -> all_events P (os_path_isfile p).
Proof. intros H w. simpl. now rewrite H. Qed.

Lemma all_events_open p mode :
  P (EvOpen p mode) = true -> all_events P (open_read p mode).
Proof. intros H w. simpl. now rewrite H. Qed.

Lemma all_events_run cmd env check :
  P (EvRun cmd env) = true -> all_events P (subprocess_run cmd env check).
Proof. intros H w. simpl. now rewrite H. Qed.

Lemma all_events_popen cmd :
  P (EvPopen cmd) = true -> all_events P (subprocess_Popen cmd).
Proof. intros H w. simpl. now rewrite H. Qed.

Lemma all_events_webopen url :
  P (EvWebOpen url) = true -> all_events P (webbrowser_open url).
Proof. intros H w. simpl. now rewrite H. Qed.

End AllEvents.

Section RaisesOnly.
Context (Q : exn -> bool).

Lemma raises_only_ret {A} (a : A) : raises_only Q (ret a).
Proof. intros w e H. discriminate. Qed.

Lemma raises_only_raise {A} e : Q e = true -> raises_only Q (@raise A e).
Proof. intros H w e' E. now injection E as <-. Qed.

Lemma raises_only_sys_exit {A} n :
  Q (SystemExit n) = true -> raises_only Q (@sys_exit A n).
Proof. apply raises_only_raise. Qed.

Lemma raises_only_bind {A B} (m : M A) (f : A -> M B) :
  raises_only Q m -> (forall a, raises_only Q (f a)) ->
  raises_only Q (bind m f).
Proof.
  intros Hm Hf w e. rewrite result_bind.
  destruct (result_of m w) as [a | e'] eqn:E.
  - apply Hf.
  - intros [= <-]. now apply (Hm w).
Qed.

(** What the handler does not catch, or raises itself, must be allowed. *)
Lemma raises_only_try {A} (m : M A) c (h : exn -> M A) (Q' : exn -> bool) :
  raises_only Q' m ->
  (forall e, Q' e = true ->
             (c e = true -> raises_only Q (h e))
             /\ (c e = false -> Q e = true)) ->
  raises_only Q (try_except m c h).
Proof.
  intros Hm Hh w e. rewrite result_try_except.
  destruct (result_of m w) as [a | e'] eqn:E; [discriminate |].
  destruct (Hh e' (Hm w e' E)) as [Hc Hn].
  destruct (c e').
  - now apply Hc.
  - intros [= <-]. now apply Hn.
Qed.

Lemma raises_only_for_each {A} (l : list A) (body : A -> M unit) :
  (forall a, raises_only Q (body a)) -> raises_only Q (for_each l body).
Proof.
  intros H. induction l; simpl.
  - apply raises_only_ret.
  - apply raises_only_bind; auto.
Qed.

Lemma raises_only_print s msg : raises_only Q (print s msg).
Proof. intros w e H. discriminate. Qed.
Lemma raises_only_path_join a b : raises_only Q (path_join a b).
Proof. intros w e H. discriminate. Qed.
Lemma raises_only_strip_ws s : raises_only Q (strip_ws s).
Proof. intros w e H. discriminate. Qed.
Lemma raises_only_upper_start b : raises_only Q (upper_start b).
Proof. intros w e H. discriminate. Qed.
Lemma raises_only_which n : raises_only Q (shutil_which n).
Proof. intros w e H. discriminate. Qed.
Lemma raises_only_glob p : raises_only Q (glob_glob p).
Proof. intros w e H. discriminate. Qed.
Lemma raises_only_exists p : raises_only Q (os_path_exists p).
Proof. intros w e H. discriminate. Qed.
Lemma raises_only_isfile p : raises_only Q (os_path_isfile p).
Proof. intros w e H. discriminate. Qed.
Lemma raises_only_webopen url : raises_only Q (webbrowser_open url).
Proof. intros w e H. discriminate. Qed.

Lemma raises_only_open p mode :
  Q (OSError "") = true -> raises_only Q (open_read p mode).
Proof.
  intros H w e. rewrite result_open.
  destruct (file_bytes w p); [discriminate | now intros [= <-]].
Qed.

Lemma raises_only_run cmd env check :
  (forall msg, Q (OSError msg) = true) ->
  (check = true -> forall rc, Q (CalledProcessError rc) = true) ->
  raises_only Q (subprocess_run cmd env check).
Proof.
  intros Hos Hcp w e. rewrite result_run.
  destruct (run_process w cmd) as [rc err | msg].
  - destruct check; simpl; [| discriminate].
    destruct (negb _); [| discriminate]. intros [= <-]. now apply Hcp.
  - intros [= <-]. apply Hos.
Qed.

Lemma raises_only_popen cmd :
  (forall msg, Q (OSError msg) = true) -> raises_only Q (subprocess_Popen cmd).
Proof.
  intros Hos w e. rewrite result_popen.
  destruct (popen_process w cmd); [| discriminate].
  intros [= <-]. apply Hos.
Qed.

End RaisesOnly.

Section SomeEvent.
Context (P : event -> bool).

Lemma some_event_bind_l {A B} (m : M A) (f : A -> M B) :
  some_event P m -> some_event P (bind m f).
Proof. intros H w. rewrite log_bind, existsb_app, H. reflexivity. Qed.

Lemma some_event_bind_r {A B} (m : M A) (f : A -> M B) :
  never_raises m -> (forall a, some_event P (f a)) ->
  some_event P (bind m f).
Proof.
  intros Hm Hf w. rewrite log_bind, existsb_app.
  destruct (never_raises_val m w Hm) as [a ->].
  rewrite Hf. apply orb_true_r.
Qed.

Lemma some_event_try {A} (m : M A) c (h : exn -> M A) :
  some_event P m -> some_event P (try_except m c h).
Proof. intros H w. rewrite log_try_except, existsb_app, H. reflexivity. Qed.

Lemma some_event_popen cmd :
  P (EvPopen cmd) = true -> some_event P (subprocess_Popen cmd).
Proof. intros H w. simpl. now rewrite H. Qed.

Lemma some_event_webopen url :
  P (EvWebOpen url) = true -> some_event P (webbrowser_open url).
Proof. intros H w. simpl. now rewrite H. Qed.

End SomeEvent.

(** One step along the structure of the code; calls of the script's own
    functions are left to the lemmas about them. *)
Ltac all_events_step :=
  lazymatch goal with
  | |- all_events _ (let _ := _ in _) => cbv zeta
  | |- all_events _ (match ?x with _ => _ end) => destruct x
  | |- all_events _ (bind _ _) => apply all_events_bind; [| intros]
  | |- all_events _ (try_except _ _ _) => apply all_events_try; [| intros]
  | |- all_events _ (for_each _ _) => apply all_events_for_each; intros
  | |- all_events _ (ret _) => apply all_events_ret
  | |- all_events _ (raise _) => apply all_events_raise
  | |- all_events _ (sys_exit _) => apply all_events_sys_exit
  | |- all_events _ (path_join _ _) => apply all_events_path_join
  | |- all_events _ (strip_ws _) => apply all_events_strip_ws
  | |- all_events _ (upper_start _) => apply all_events_upper_start
  | |- all_events _ (print _ _) => apply all_events_print; reflexivity
  | |- all_events _ (shutil_which _) => apply all_events_which; reflexivity
  | |- all_events _ (glob_glob _) => apply all_events_glob; reflexivity
  | |- all_events _ (os_path_exists _) => apply all_events_exists; reflexivity
  | |- all_events _ (os_path_isfile _) => apply all_events_isfile; reflexivity
  | |- all_events _ (open_read _ _) => apply all_events_open; reflexivity
  | |- all_events _ (subprocess_Popen _) => apply all_events_popen; reflexivity
  | |- all_events _ (webbrowser_open _) => apply all_events_webopen; reflexivity
  end.

Ltac all_events_auto := repeat all_events_step.

Ltac raises_only_step :=
  lazymatch goal with
  | |- raises_only _ (let _ := _ in _) => cbv zeta
  | |- raises_only _ (match ?x with _ => _ end) => destruct x
  | |- raises_only _ (bind _ _) => apply raises_only_bind; [| intros]
  | |- raises_only _ (for_each _ _) => apply raises_only_for_each; intros
  | |- raises_only _ (ret _) => apply raises_only_ret
  | |- raises_only _ (print _ _) => apply raises_only_print
  | |- raises_only _ (path_join _ _) => apply raises_only_path_join
  | |- raises_only _ (strip_ws _) => apply raises_only_strip_ws
  | |- raises_only _ (upper_start _) => apply raises_only_upper_start
  | |- raises_only _ (shutil_which _) => apply raises_only_which
  | |- raises_only _ (glob_glob _) => apply raises_only_glob
  | |- raises_only _ (os_path_exists _) => apply raises_only_exists
  | |- raises_only _ (os_path_isfile _) => apply raises_only_isfile
  | |- raises_only _ (webbrowser_open _) => apply raises_only_webopen
  end.

Ltac raises_only_auto := repeat raises_only_step.

Ltac some_event_step :=
  lazymatch goal with
  | |- some_event _ (let _ := _ in _) => cbv zeta
  | |- some_event _ (match ?x with _ => _ end) => destruct x
  | |- some_event _ (try_except _ _ _) => apply some_event_try
  | |- some_event _ (bind (subprocess_Popen _) _) =>
      apply some_event_bind_l, some_event_popen; reflexivity
  | |- some_event _ (bind (webbrowser_open _) _) =>
      apply some_event_bind_l, some_event_webopen; reflexivity
  | |- some_event _ (bind _ _) =>
      apply some_event_bind_r;
      [ solve [unfold never_raises; raises_only_auto] | intros ]
  end.

Ltac some_event_auto := repeat some_event_step.

(** ** The recovery action *)

Lemma not_a_run_commands l : forallb not_a_run l = true -> commands_run l = [].
Proof.
  induction l as [| e l IH]; simpl; auto.
  intros H. apply andb_true_iff in H as [He Hl].
  destruct e; try discriminate; simpl; auto.
Qed.

Lemma launch_never_raises err :
  never_raises (launch_stackbuilder_from_error err).
Proof.
  unfold never_raises, launch_stackbuilder_from_error.
  raises_only_auto.
  apply (raises_only_try _ _ _ _ is_Exception).
  - raises_only_auto. now apply raises_only_popen.
  - intros e He. split; [intros _; raises_only_auto | congruence].
Qed.

Lemma launch_quiet err :
  all_events not_a_run (launch_stackbuilder_from_error err).
Proof. unfold launch_stackbuilder_from_error. all_events_auto. Qed.

Lemma launch_recovers err :
  some_event recovery_action (launch_stackbuilder_from_error err).
Proof. unfold launch_stackbuilder_from_error. some_event_auto. Qed.

(** ** Extension activation *)

Lemma strs_eqb_eq a b : strs_eqb a b = true <-> a = b.
Proof.
  revert b. induction a as [| x a IH]; intros [| y b]; simpl;
    try (split; [discriminate | congruence]); try tauto.
  rewrite andb_true_iff, String.eqb_eq, IH.
  split; [intros [-> ->] | intros [= -> ->]]; auto.
Qed.

Lemma is_activation_cmd_spec cmd :
  is_activation_cmd cmd = true <->
  exists tool sql, cmd = activation_cmd tool sql.
Proof.
  split.
  - destruct cmd as [| tool r]; [discriminate |].
    cbv beta iota delta [is_activation_cmd].
    intros H. apply strs_eqb_eq in H. eauto.
  - intros (tool & sql & ->). apply strs_eqb_eq. reflexivity.
Qed.

Lemma all_events_weaken (P P' : event -> bool) {A} (m : M A) :
  (forall e, P e = true -> P' e = true) ->
  all_events P m -> all_events P' m.
Proof.
  intros HP Hm w. specialize (Hm w). rewrite forallb_forall in *. auto.
Qed.

Lemma activator_events_commands l :
  forallb activator_event l = true ->
  forallb is_activation_cmd (commands_run l) = true.
Proof.
  induction l as [| e l IH]; simpl; auto.
  intros H. apply andb_true_iff in H as [He Hl].
  destruct e; simpl in *; auto. now rewrite He, IH.
Qed.

Lemma find_executable_all_events P name :
  (forall n, P (EvWhich n) = true) -> (forall p, P (EvGlob p) = true) ->
  all_events P (find_executable name).
Proof.
  intros Hw Hg w. pose proof (find_executable_log name w) as H.
  rewrite forallb_forall in *. intros e He. specialize (H e He).
  destruct e; try discriminate; auto.
Qed.

Lemma find_executable_never_raises name : never_raises (find_executable name).
Proof. intros w e. rewrite find_executable_val. discriminate. Qed.

Lemma enable_extension_events tool sql :
  all_events activator_event (enable_extension tool sql).
Proof.
  unfold enable_extension. all_events_auto.
  - apply all_events_run. apply is_activation_cmd_spec. eauto.
  - apply (all_events_weaken not_a_run); [now intros [] | apply launch_quiet].
Qed.

Lemma enable_extension_raises tool sql :
  raises_only is_exit_1 (enable_extension tool sql).
Proof.
  unfold enable_extension. cbv zeta.
  apply (raises_only_try _ _ _ _ exit_1_or_Exception).
  - raises_only_auto.
    + now apply raises_only_run.
    + intros w e E. now apply launch_never_raises in E.
    + now apply raises_only_sys_exit.
  - intros e He. split; [intros _; raises_only_auto |].
    unfold exit_1_or_Exception in He. intros Hc. now rewrite Hc, orb_false_r in He.
Qed.

Lemma force_enable_postgis_events : all_events activator_event force_enable_postgis.
Proof.
  unfold force_enable_postgis. all_events_auto.
  - now apply find_executable_all_events.
  - apply enable_extension_events.
Qed.

Lemma force_enable_postgis_raises : raises_only is_exit_1 force_enable_postgis.
Proof.
  unfold force_enable_postgis. raises_only_auto.
  - intros w e E. now apply find_executable_never_raises in E.
  - apply enable_extension_raises.
Qed.

Lemma enable_extension_fatal w tool sql :
  fatal w tool sql = true ->
  log_of (enable_extension tool sql) w =
    EvRun (activation_cmd tool sql) pg_env :: EvPrint Stderr MSG_FALTA
      :: log_of (launch_stackbuilder_from_error (error_text w tool sql)) w
  /\ result_of (enable_extension tool sql) w = Exc (SystemExit 1).
Proof.
  unfold fatal, error_text, enable_extension. intros H. run_step.
  destruct (run_process w (activation_cmd tool sql)) as [rc err | msg];
    [| discriminate].
  apply andb_true_iff in H as [Hrc Hm]. apply negb_true_iff in Hrc.
  run_step. rewrite Hrc, Hm. run_step.
  destruct (never_raises_val _ w (launch_never_raises err)) as [b ->].
  run_step. auto.
Qed.

Lemma enable_extension_ok w tool sql :
  fatal w tool sql = false ->
  (exists s msg,
      log_of (enable_extension tool sql) w =
        [EvRun (activation_cmd tool sql) pg_env; EvPrint s msg])
  /\ result_of (enable_extension tool sql) w = Val tt.
Proof.
  unfold fatal, enable_extension. intros H. run_step.
  destruct (run_process w (activation_cmd tool sql)) as [rc err | msg].
  - run_step.
    destruct (rc =? 0)%Z; run_step; eauto.
    cbn [negb andb] in H. rewrite H. run_step. eauto.
  - run_step. eauto.
Qed.

Lemma commands_run_nil : commands_run [] = [].
Proof. reflexivity. Qed.

Lemma commands_run_cons e l :
  commands_run (e :: l) =
  match e with
  | EvRun cmd _ => [cmd]
  | _ => []
  end ++ commands_run l.
Proof. reflexivity. Qed.

#[local] Hint Rewrite find_executable_val find_executable_runs_nothing
  commands_run_app commands_run_cons commands_run_nil : run.

Lemma commands_eq : commands = [SQL_POSTGIS; SQL_TOPOLOGY].
Proof. reflexivity. Qed.

Lemma activation_cmd_inj tool sql tool' sql' :
  activation_cmd tool sql = activation_cmd tool' sql' ->
  tool = tool' /\ sql = sql'.
Proof. intros [= -> ->]. auto. Qed.

(** psql is missing: the activator says so and returns [False]. *)
Lemma activator_without_psql w :
  truthy (lookup w "psql") = false ->
  log_of force_enable_postgis w =
    EvPrint Stdout MSG_PASO1 :: log_of (find_executable "psql") w
      ++ [EvPrint Stderr MSG_NO_PSQL_ACTIVATE]
  /\ result_of force_enable_postgis w = Val (Some false).
Proof.
  intros H. unfold force_enable_postgis. run_step. rewrite H. run_step. auto.
Qed.

(** psql is there: the two statements, the second one only if the first
    let the run go on. *)
Lemma activator_with_psql w psql :
  lookup w "psql" = Some psql -> nonempty psql = true ->
  log_of force_enable_postgis w =
    EvPrint Stdout MSG_PASO1 :: log_of (find_executable "psql") w
      ++ log_of (enable_extension psql SQL_POSTGIS) w
      ++ match result_of (enable_extension psql SQL_POSTGIS) w with
         | Val _ => log_of (enable_extension psql SQL_TOPOLOGY) w
         | Exc _ => []
         end
  /\ result_of force_enable_postgis w =
     match result_of (enable_extension psql SQL_POSTGIS) w with
     | Val _ =>
         match result_of (enable_extension psql SQL_TOPOLOGY) w with
         | Val _ => Val None
         | Exc e => Exc e
         end
     | Exc e => Exc e
     end.
Proof.
  intros H Hn. unfold force_enable_postgis. run_step. rewrite H.
  cbn [truthy]. rewrite Hn. rewrite commands_eq. cbn [for_each]. run_step.
  destruct (result_of (enable_extension psql SQL_POSTGIS) w); run_step; auto.
  destruct (result_of (enable_extension psql SQL_TOPOLOGY) w); run_step; auto.
Qed.

Lemma activator_runs_two w psql :
  lookup w "psql" = Some psql -> nonempty psql = true ->
  fatal w psql SQL_POSTGIS = false -> fatal w psql SQL_TOPOLOGY = false ->
  commands_run (log_of force_enable_postgis w) =
    [activation_cmd psql SQL_POSTGIS; activation_cmd psql SQL_TOPOLOGY]
  /\ result_of force_enable_postgis w = Val None.
Proof.
  intros H Hn H1 H2.
  destruct (activator_with_psql w psql H Hn) as [-> ->].
  destruct (enable_extension_ok w psql _ H1) as [(s1 & m1 & ->) ->].
  destruct (enable_extension_ok w psql _ H2) as [(s2 & m2 & ->) ->].
  run_step. auto.
Qed.

Lemma activator_runs_activation_only w :
  forallb is_activation_cmd (commands_run (log_of force_enable_postgis w))
  = true.
Proof. apply activator_events_commands, force_enable_postgis_events. Qed.

Lemma activator_result w :
  (exists r, result_of force_enable_postgis w = Val r)
  \/ result_of force_enable_postgis w = Exc (SystemExit 1).
Proof.
  destruct (result_of force_enable_postgis w) as [r | e] eqn:E; eauto.
  right. apply force_enable_postgis_raises in E.
  destruct e as [[| [| |] |] | | |]; try discriminate. reflexivity.
Qed.

(** A statement that fails for want of the extension's files ends the
    activator with [sys.exit(1)], after the recovery action and with
    nothing else run. *)
Lemma activator_fatal w tool sql :
  In (EvRun (activation_cmd tool sql) pg_env) (log_of force_enable_postgis w) ->
  fatal w tool sql = true ->
  result_of force_enable_postgis w = Exc (SystemExit 1)
  /\ exists pre post,
       log_of force_enable_postgis w
       = pre ++ EvRun (activation_cmd tool sql) pg_env :: post
       /\ existsb recovery_action post = true
       /\ commands_run post = [].
Proof.
  intros Hin Hf.
  pose proof (find_executable_log "psql" w) as Hfind.
  rewrite forallb_forall in Hfind.
  assert (Hlaunch : forall err,
             existsb recovery_action
               (EvPrint Stderr MSG_FALTA
                  :: log_of (launch_stackbuilder_from_error err) w) = true
             /\ commands_run
                  (EvPrint Stderr MSG_FALTA
                     :: log_of (launch_stackbuilder_from_error err) w) = []).
  { intros err. split.
    - cbn [existsb recovery_action orb]. apply launch_recovers.
    - rewrite commands_run_cons_print. apply not_a_run_commands, launch_quiet. }
  assert (Hnot : forall err,
             ~ In (EvRun (activation_cmd tool sql) pg_env)
                 (EvPrint Stderr MSG_FALTA
                    :: log_of (launch_stackbuilder_from_error err) w)).
  { intros err [? | Hl]; [discriminate |].
    pose proof (launch_quiet err w) as Hq. rewrite forallb_forall in Hq.
    now apply Hq in Hl. }
  destruct (truthy (lookup w "psql")) eqn:Ht.
  - destruct (lookup w "psql") as [psql |] eqn:Hl; [| discriminate].
    cbn [truthy] in Ht.
    destruct (activator_with_psql w psql Hl Ht) as [Hlog Hres].
    rewrite Hlog in Hin |- *. rewrite Hres. clear Hlog Hres.
    destruct Hin as [? | Hin]; [discriminate |].
    apply in_app_or in Hin as [Hin | Hin]; [now apply Hfind in Hin |].
    destruct (fatal w psql SQL_POSTGIS) eqn:F1.
    + destruct (enable_extension_fatal w psql _ F1) as [E1 R1].
      rewrite E1, R1 in *. rewrite app_nil_r in *.
      destruct Hin as [[= <- <-] | Hin]; [| now apply Hnot in Hin].
      split; auto.
      eexists (EvPrint Stdout MSG_PASO1 :: log_of (find_executable "psql") w), _.
      split; [reflexivity | apply Hlaunch].
    + destruct (enable_extension_ok w psql _ F1) as [(s1 & m1 & E1) R1].
      rewrite E1, R1 in *.
      destruct Hin as [[= <- <-] | [? | Hin]]; [congruence | discriminate |].
      cbn [app] in Hin.
      destruct (fatal w psql SQL_TOPOLOGY) eqn:F2.
      * destruct (enable_extension_fatal w psql _ F2) as [E2 R2].
        rewrite E2, R2 in *.
        destruct Hin as [[= <- <-] | Hin]; [| now apply Hnot in Hin].
        split; auto.
        eexists (EvPrint Stdout MSG_PASO1 :: log_of (find_executable "psql") w
                   ++ [EvRun (activation_cmd psql SQL_POSTGIS) pg_env;
                       EvPrint s1 m1]), _.
        split; [| apply Hlaunch].
        cbn [app]. rewrite <- app_assoc. reflexivity.
      * destruct (enable_extension_ok w psql _ F2) as [(s2 & m2 & E2) R2].
        rewrite E2 in Hin.
        destruct Hin as [[= <- <-] | [? | []]]; [congruence | discriminate].
  - destruct (activator_without_psql w Ht) as [Hlog _].
    rewrite Hlog in Hin.
    destruct Hin as [? | Hin]; [discriminate |].
    apply in_app_or in Hin as [Hin | [? | []]]; [| discriminate].
    now apply Hfind in Hin.
Qed.

(** ** Format detection *)

Section ListSearchFacts.
Context {A : Type} (eqb : A -> A -> bool).

Lemma starts_with_firstn p l n :
  List.length p <= n -> starts_with eqb p (firstn n l) = starts_with eqb p l.
Proof.
  revert l n. induction p as [| x p IH]; intros l n H; [reflexivity |].
  destruct n as [| n]; [simpl in H; lia |].
  destruct l as [| y l]; simpl; [reflexivity |].
  rewrite IH; [reflexivity | simpl in H; lia].
Qed.

Lemma starts_with_app p l1 l2 :
  starts_with eqb p l1 = true -> starts_with eqb p (l1 ++ l2) = true.
Proof.
  revert l1. induction p as [| x p IH]; intros [| y l1]; simpl; auto;
    [discriminate |].
  intros H. apply andb_true_iff in H as [-> H]. simpl. auto.
Qed.

Lemma is_infix_app p l1 l2 :
  is_infix eqb p l1 = true -> is_infix eqb p (l1 ++ l2) = true.
Proof.
  induction l1 as [| y l1 IH]; simpl.
  - rewrite orb_false_r. destruct p; [| discriminate].
    intros _. destruct l2; reflexivity.
  - intros H. apply orb_true_iff in H as [H | H].
    + apply (starts_with_app p (y :: l1) l2) in H. simpl in H.
      destruct p; simpl in *; [reflexivity | now rewrite H].
    + rewrite (IH H). apply orb_true_r.
Qed.

(** An occurrence within the first [n] items is one within the first [m],
    for [n <= m]. *)
Lemma is_infix_firstn_mono p l n m :
  n <= m ->
  is_infix eqb p (firstn n l) = true -> is_infix eqb p (firstn m l) = true.
Proof.
  intros Hnm H.
  rewrite <- (firstn_skipn n (firstn m l)).
  rewrite firstn_firstn, Nat.min_l by exact Hnm.
  now apply is_infix_app.
Qed.

Lemma starts_with_length p l :
  starts_with eqb p l = true -> List.length p <= List.length l.
Proof.
  revert l. induction p as [| x p IH]; intros [| y l]; simpl;
    try discriminate; try lia.
  intros H. apply andb_true_iff in H as [_ H]. apply IH in H. lia.
Qed.

Lemma is_infix_length p l :
  is_infix eqb p l = true -> List.length p <= List.length l.
Proof.
  induction l as [| y l IH]; simpl.
  - rewrite orb_false_r. apply (starts_with_length p []).
  - intros H. apply orb_true_iff in H as [H | H].
    + apply (starts_with_length p (y :: l)). exact H.
    + apply IH in H. lia.
Qed.

(** In a list no longer than the pattern, the pattern can only sit at the
    start. *)
Lemma is_infix_tight p l :
  List.length l <= List.length p ->
  is_infix eqb p l = true -> starts_with eqb p l = true.
Proof.
  intros Hlen H. destruct l as [| y l]; simpl in H.
  - now rewrite orb_false_r in H.
  - apply orb_true_iff in H as [H | H]; [exact H |].
    apply is_infix_length in H. simpl in Hlen. lia.
Qed.

End ListSearchFacts.

Lemma open_events_run_nothing l :
  forallb is_open_event l = true -> commands_run l = [].
Proof.
  induction l as [| e l IH]; simpl; auto.
  intros H. apply andb_true_iff in H as [He Hl].
  destruct e; try discriminate; simpl; auto.
Qed.

Lemma detect_file_type_events path :
  all_events is_open_event (detect_file_type path).
Proof. unfold detect_file_type. all_events_auto. Qed.

Lemma detect_file_type_never_raises path :
  never_raises (detect_file_type path).
Proof.
  unfold never_raises, detect_file_type.
  apply (raises_only_try _ _ _ _ any_exception).
  - intros w e _. reflexivity.
  - intros e _. split; [intros _; apply raises_only_ret | discriminate].
Qed.

Lemma detect_file_type_val path w :
  result_of (detect_file_type path) w = Val (detected w path).
Proof.
  unfold detected.
  destruct (never_raises_val _ w (detect_file_type_never_raises path)) as [t ->].
  reflexivity.
Qed.

Lemma detect_file_type_runs_nothing path w :
  commands_run (log_of (detect_file_type path) w) = [].
Proof. apply open_events_run_nothing, detect_file_type_events. Qed.

(** The three outcomes for a file that can be read. *)
Lemma detect_pgdmp w path b :
  file_bytes w path = Some b ->
  bytes_startswith PGDMP b = true ->
  log_of (detect_file_type path) w = [EvOpen path ReadBinary]
  /\ detected w path = PG_DUMP_BINARY.
Proof.
  intros Hb Hp. unfold detected, detect_file_type. run_step. rewrite Hb.
  run_step. unfold bytes_startswith in *.
  rewrite starts_with_firstn, Hp by (simpl; lia). run_step. auto.
Qed.

Lemma sqlite_header_is_not_pgdmp h :
  List.length h <= 15 ->
  bytes_contains SQLITE_MAGIC h = true -> bytes_startswith PGDMP h = false.
Proof.
  intros Hlen H. apply is_infix_tight in H; [| exact Hlen].
  destruct h as [| x h]; [reflexivity |].
  unfold bytes_startswith. simpl in *.
  apply andb_true_iff in H as [H _]. apply Byte.byte_dec_bl in H as <-.
  reflexivity.
Qed.

Lemma detect_sqlite w path b :
  file_bytes w path = Some b ->
  bytes_contains SQLITE_MAGIC (firstn 15 b) = true ->
  log_of (detect_file_type path) w = [EvOpen path ReadBinary]
  /\ detected w path = GEOPACKAGE.
Proof.
  intros Hb Hs. unfold detected, detect_file_type. run_step. rewrite Hb.
  run_step.
  rewrite (sqlite_header_is_not_pgdmp _ (firstn_le_length 15 b) Hs), Hs.
  run_step. auto.
Qed.

Lemma detect_text w path b :
  file_bytes w path = Some b ->
  bytes_startswith PGDMP b = false ->
  bytes_contains SQLITE_MAGIC (firstn 15 b) = false ->
  log_of (detect_file_type path) w
  = [EvOpen path ReadBinary; EvOpen path ReadText]
  /\ detected w path
     = if looks_like_sql (text_start w b) then SQL_SCRIPT else UNKNOWN.
Proof.
  intros Hb Hp Hs. unfold detected, detect_file_type. run_step. rewrite Hb.
  run_step. unfold bytes_startswith in *.
  rewrite starts_with_firstn, Hp, Hs by (simpl; lia). run_step. rewrite Hb.
  run_step. destruct (looks_like_sql _); run_step; auto.
Qed.

Lemma detect_unreadable w path :
  file_bytes w path = None ->
  log_of (detect_file_type path) w = [EvOpen path ReadBinary]
  /\ detected w path = UNKNOWN.
Proof.
  intros Hb. unfold detected, detect_file_type. run_step. rewrite Hb.
  run_step. auto.
Qed.

#[local] Hint Rewrite detect_file_type_val detect_file_type_runs_nothing : run.

(** ** The importers *)

Lemma pg_restore_log path w :
  exists rest,
    log_of (import_with_pg_restore path) w
    = EvPrint Stdout MSG_PASO2_RESTORE :: log_of force_enable_postgis w ++ rest
    /\ (forall e, result_of force_enable_postgis w = Exc e -> rest = []).
Proof.
  unfold import_with_pg_restore. run_step.
  eexists. split; [reflexivity |]. now intros e ->.
Qed.

Lemma pg_restore_commands path w :
  commands_run (log_of (import_with_pg_restore path) w)
  = commands_run (log_of force_enable_postgis w)
    ++ match result_of force_enable_postgis w with
       | Val _ =>
           if truthy (lookup w "pg_restore")
           then [restore_cmd (found_at (lookup w "pg_restore")) path]
           else []
       | Exc _ => []
       end.
Proof.
  unfold import_with_pg_restore, found_at. run_step. f_equal.
  destruct (result_of force_enable_postgis w); run_step; auto.
  destruct (truthy (lookup w "pg_restore")); run_step; auto.
  destruct (run_process w _); run_step; auto.
Qed.

Lemma pg_restore_result path w :
  result_of (import_with_pg_restore path) w
  = match result_of force_enable_postgis w with
    | Val _ => Val tt
    | Exc e => Exc e
    end.
Proof.
  unfold import_with_pg_restore. run_step.
  destruct (result_of force_enable_postgis w); run_step; auto.
  destruct (truthy (lookup w "pg_restore")); run_step; auto.
  destruct (run_process w _); run_step; auto.
Qed.

Lemma psql_log path w :
  exists rest,
    log_of (import_with_psql path) w
    = EvPrint Stdout MSG_PASO2_SCRIPT :: log_of force_enable_postgis w ++ rest
    /\ (forall e, result_of force_enable_postgis w = Exc e -> rest = []).
Proof.
  unfold import_with_psql. run_step.
  eexists. split; [reflexivity |]. now intros e ->.
Qed.

Lemma psql_commands path w :
  commands_run (log_of (import_with_psql path) w)
  = commands_run (log_of force_enable_postgis w)
    ++ match result_of force_enable_postgis w with
       | Val _ =>
           if truthy (lookup w "psql")
           then [script_cmd (found_at (lookup w "psql")) path]
           else []
       | Exc _ => []
       end.
Proof.
  unfold import_with_psql, found_at. run_step. f_equal.
  destruct (result_of force_enable_postgis w); run_step; auto.
  destruct (truthy (lookup w "psql")); run_step; auto.
  destruct (run_process w _) as [rc err | msg]; run_step; auto.
  destruct (rc =? 0)%Z; run_step; auto.
Qed.

(** The script import once the activator has let the run go on and psql
    has been found: what follows the lookup, and how the function ends. *)
Lemma psql_after_activation path w r psql :
  result_of force_enable_postgis w = Val r ->
  lookup w "psql" = Some psql -> nonempty psql = true ->
  log_of (import_with_psql path) w
  = EvPrint Stdout MSG_PASO2_SCRIPT :: log_of force_enable_postgis w
      ++ log_of (find_executable "psql") w
      ++ [EvRun (script_cmd psql path) pg_env]
      ++ match run_process w (script_cmd psql path) with
         | Completed rc _ =>
             if (rc =? 0)%Z then [EvPrint Stdout MSG_SCRIPT_DONE]
             else [EvPrint Stderr (MSG_PSQL_FAILED rc)]
         | SpawnError _ => []
         end
  /\ result_of (import_with_psql path) w
     = match run_process w (script_cmd psql path) with
       | Completed _ _ => Val tt
       | SpawnError msg => Exc (OSError msg)
       end.
Proof.
  intros Hr Hl Hn. unfold import_with_psql. run_step. rewrite Hr. run_step.
  rewrite Hl. cbn [truthy]. rewrite Hn. run_step.
  destruct (run_process w _) as [rc err | msg]; run_step; auto.
  destruct (rc =? 0)%Z; run_step; auto.
Qed.

Lemma psql_without_psql path w :
  truthy (lookup w "psql") = false ->
  log_of (import_with_psql path) w
  = EvPrint Stdout MSG_PASO2_SCRIPT :: log_of force_enable_postgis w
      ++ log_of (find_executable "psql") w ++ [EvPrint Stderr MSG_NO_PSQL]
  /\ result_of (import_with_psql path) w = Val tt.
Proof.
  intros H. unfold import_with_psql. run_step.
  destruct (activator_without_psql w H) as [_ ->]. run_step.
  rewrite H. run_step. auto.
Qed.

Lemma ogr2ogr_found path w ogr :
  lookup w "ogr2ogr" = Some ogr ->
  log_of (import_with_ogr2ogr path) w
  = EvPrint Stdout MSG_OGR2OGR :: log_of (find_executable "ogr2ogr") w
      ++ [EvRun (ogr :: ogr2ogr_args path) []]
  /\ result_of (import_with_ogr2ogr path) w
     = match run_process w (ogr :: ogr2ogr_args path) with
       | Completed _ _ => Val tt
       | SpawnError msg => Exc (OSError msg)
       end.
Proof.
  intros H. unfold import_with_ogr2ogr, subprocess_run_args. run_step.
  rewrite H. cbn [all_str map ogr2ogr_args]. run_step.
  destruct (run_process w _); run_step; auto.
Qed.

Lemma ogr2ogr_missing path w :
  lookup w "ogr2ogr" = None ->
  log_of (import_with_ogr2ogr path) w
  = EvPrint Stdout MSG_OGR2OGR :: log_of (find_executable "ogr2ogr") w
  /\ result_of (import_with_ogr2ogr path) w = Exc TypeError.
Proof.
  intros H. unfold import_with_ogr2ogr, subprocess_run_args. run_step.
  rewrite H. cbn [all_str]. run_step. auto.
Qed.

Lemma ogr2ogr_commands path w :
  commands_run (log_of (import_with_ogr2ogr path) w)
  = match lookup w "ogr2ogr" with
    | Some ogr => [ogr :: ogr2ogr_args path]
    | None => []
    end.
Proof.
  destruct (lookup w "ogr2ogr") as [ogr |] eqn:H.
  - destruct (ogr2ogr_found path w ogr H) as [-> _]. now run_step.
  - destruct (ogr2ogr_missing path w H) as [-> _]. now run_step.
Qed.

(** ** The main block *)

Lemma log_resolve_input_file w :
  log_of (resolve_input_file INPUT_FILENAME) w = [EvIsFile (resolved_path w)].
Proof.
  unfold resolve_input_file, resolved_path, log_of, bind, path_join,
    os_path_isfile.
  cbn [fst snd]. destruct (isfile w _); reflexivity.
Qed.

Lemma result_resolve_input_file w :
  result_of (resolve_input_file INPUT_FILENAME) w = Val (resolved w).
Proof.
  unfold resolve_input_file, resolved, resolved_path, result_of, bind,
    path_join, os_path_isfile.
  cbn [fst snd]. destruct (isfile w _); reflexivity.
Qed.

Lemma main_without_input w :
  isfile w (resolved_path w) && nonempty (resolved_path w) = false ->
  main w = ([EvPrint Stdout MSG_START; EvIsFile (resolved_path w);
             EvPrint Stderr MSG_NO_INPUT],
            Exc (SystemExit 1)).
Proof.
  intros H. rewrite run_eq. unfold main. run_step.
  rewrite log_resolve_input_file, result_resolve_input_file. run_step.
  unfold resolved.
  destruct (isfile w (resolved_path w)); cbn [truthy andb] in *;
    [rewrite H |]; run_step; reflexivity.
Qed.

Lemma main_with_input w path :
  input_found w path ->
  main w = (EvPrint Stdout MSG_START :: EvIsFile path
              :: log_of (detect_file_type path) w
              ++ EvPrint Stdout ("Tipo de archivo: "
                                 ++ file_type_str (detected w path))
              :: log_of (dispatch (detected w path) path) w,
            result_of (dispatch (detected w path) path) w).
Proof.
  intros (-> & Hf & Hn). fold (resolved_path w) in *.
  rewrite run_eq. unfold main. run_step.
  rewrite log_resolve_input_file, result_resolve_input_file. run_step.
  unfold resolved. rewrite Hf. cbn [truthy]. rewrite Hn. run_step.
  reflexivity.
Qed.

(** ** Facts shared by the statements about whole runs *)

Lemma in_commands_run cmd env l :
  In (EvRun cmd env) l -> In cmd (commands_run l).
Proof.
  induction l as [| e l IH]; simpl; auto.
  intros [-> | H]; [now left |].
  apply in_or_app. right. now apply IH.
Qed.

Lemma activation_is_not_restore tool sql t p :
  activation_cmd tool sql <> restore_cmd t p.
Proof. discriminate. Qed.

Lemma activation_is_not_script tool sql t p :
  activation_cmd tool sql <> script_cmd t p.
Proof. discriminate. Qed.

Lemma activation_is_not_conversion tool sql t p :
  activation_cmd tool sql <> t :: ogr2ogr_args p.
Proof. discriminate. Qed.

Lemma only_activation_in l c :
  forallb is_activation_cmd l = true -> In c l ->
  exists tool sql, c = activation_cmd tool sql.
Proof.
  intros H Hin. rewrite forallb_forall in H.
  now apply is_activation_cmd_spec, H.
Qed.

(** Where only statements of the activator are run, no importer is. *)
Lemma only_activation_no_import l :
  forallb is_activation_cmd l = true ->
  forall t p,
    ~ In (restore_cmd t p) l /\ ~ In (script_cmd t p) l
    /\ ~ In (t :: ogr2ogr_args p) l.
Proof.
  intros H t p. repeat split; intros Hin;
    destruct (only_activation_in l _ H Hin) as (tool & sql & E);
    symmetry in E; revert E.
  - apply activation_is_not_restore.
  - apply activation_is_not_script.
  - apply activation_is_not_conversion.
Qed.

(** A fatal statement inside a piece of the run made of some quiet
    preamble, the activator, and whatever follows the activator. *)
Lemma fatal_after_preamble w tool sql head rest :
  (forall e, result_of force_enable_postgis w = Exc e -> rest = []) ->
  ~ In (activation_cmd tool sql) (commands_run rest) ->
  commands_run head = [] ->
  In (EvRun (activation_cmd tool sql) pg_env)
     (head ++ log_of force_enable_postgis w ++ rest) ->
  fatal w tool sql = true ->
  result_of force_enable_postgis w = Exc (SystemExit 1)
  /\ rest = []
  /\ exists pre post,
       head ++ log_of force_enable_postgis w ++ rest
       = pre ++ EvRun (activation_cmd tool sql) pg_env :: post
       /\ existsb recovery_action post = true
       /\ commands_run post = [].
Proof.
  intros Hrest Hnot Hhead Hin Hf.
  apply in_app_or in Hin as [Hin | Hin].
  { apply in_commands_run in Hin. rewrite Hhead in Hin. destruct Hin. }
  apply in_app_or in Hin as [Hin | Hin].
  2: { now apply in_commands_run in Hin. }
  destruct (activator_fatal w tool sql Hin Hf) as (Hres & pre & post & E & Hp).
  rewrite (Hrest _ Hres). repeat split; auto.
  exists (head ++ pre), post. split; [| exact Hp].
  rewrite E, app_nil_r, app_assoc. reflexivity.
Qed.

(** Any piece of the script that prints, calls the activator and goes on
    only if the activator returns. *)
Lemma fatal_in_importer w tool sql (m : M unit) head X :
  (exists rest,
      log_of m w = head ++ log_of force_enable_postgis w ++ rest
      /\ (forall e, result_of force_enable_postgis w = Exc e -> rest = [])) ->
  commands_run head = [] ->
  commands_run (log_of m w)
  = commands_run (log_of force_enable_postgis w) ++ X ->
  ~ In (activation_cmd tool sql) X ->
  (forall e, result_of force_enable_postgis w = Exc e ->
             result_of m w = Exc e) ->
  In (EvRun (activation_cmd tool sql) pg_env) (log_of m w) ->
  fatal w tool sql = true ->
  stops_after_recovery w tool sql (log_of m w) (result_of m w).
Proof.
  intros (rest & Hlog & Hrest) Hhead Hcmds HX Hres Hin Hf.
  assert (HrX : commands_run rest = X).
  { rewrite Hlog, !commands_run_app, Hhead in Hcmds. cbn [app] in Hcmds.
    now apply app_inv_head in Hcmds. }
  rewrite Hlog in Hin.
  destruct (fatal_after_preamble w tool sql head rest Hrest) as (Hr & -> & Hd);
    auto; [now rewrite HrX |].
  split; [now apply Hres |]. split; [| now rewrite Hlog].
  rewrite Hlog, !commands_run_app, Hhead, app_nil_r. cbn [app].
  apply activator_runs_activation_only.
Qed.

Lemma fatal_in_pg_restore w tool sql path :
  In (EvRun (activation_cmd tool sql) pg_env)
     (log_of (import_with_pg_restore path) w) ->
  fatal w tool sql = true ->
  stops_after_recovery w tool sql (log_of (import_with_pg_restore path) w)
    (result_of (import_with_pg_restore path) w).
Proof.
  apply (fatal_in_importer w tool sql _ [EvPrint Stdout MSG_PASO2_RESTORE]
           (match result_of force_enable_postgis w with
            | Val _ =>
                if truthy (lookup w "pg_restore")
                then [restore_cmd (found_at (lookup w "pg_restore")) path]
                else []
            | Exc _ => []
            end)).
  - apply pg_restore_log.
  - reflexivity.
  - apply pg_restore_commands.
  - destruct (result_of force_enable_postgis w); [| tauto].
    destruct (truthy _); [| tauto].
    intros [E | []]. symmetry in E. revert E. apply activation_is_not_restore.
  - intros e E. now rewrite pg_restore_result, E.
Qed.

Lemma psql_result_exc path w e :
  result_of force_enable_postgis w = Exc e ->
  result_of (import_with_psql path) w = Exc e.
Proof. intros E. unfold import_with_psql. run_step. rewrite E. reflexivity. Qed.

Lemma fatal_in_psql w tool sql path :
  In (EvRun (activation_cmd tool sql) pg_env)
     (log_of (import_with_psql path) w) ->
  fatal w tool sql = true ->
  stops_after_recovery w tool sql (log_of (import_with_psql path) w)
    (result_of (import_with_psql path) w).
Proof.
  apply (fatal_in_importer w tool sql _ [EvPrint Stdout MSG_PASO2_SCRIPT]
           (match result_of force_enable_postgis w with
            | Val _ =>
                if truthy (lookup w "psql")
                then [script_cmd (found_at (lookup w "psql")) path]
                else []
            | Exc _ => []
            end)).
  - apply psql_log.
  - reflexivity.
  - apply psql_commands.
  - destruct (result_of force_enable_postgis w); [| tauto].
    destruct (truthy _); [| tauto].
    intros [E | []]. symmetry in E. revert E. apply activation_is_not_script.
  - apply psql_result_exc.
Qed.

Lemma stops_after_recovery_cons w tool sql e log r :
  commands_run [e] = [] ->
  stops_after_recovery w tool sql log r ->
  stops_after_recovery w tool sql (e :: log) r.
Proof.
  intros He (Hr & Hc & pre & post & -> & Hp). split; [exact Hr |]. split.
  - change (e :: pre ++ EvRun (activation_cmd tool sql) pg_env :: post)
      with ([e] ++ pre ++ EvRun (activation_cmd tool sql) pg_env :: post).
    now rewrite commands_run_app, He.
  - now exists (e :: pre), post.
Qed.

Lemma stops_after_recovery_app w tool sql l log r :
  commands_run l = [] ->
  stops_after_recovery w tool sql log r ->
  stops_after_recovery w tool sql (l ++ log) r.
Proof.
  intros He (Hr & Hc & pre & post & -> & Hp). split; [exact Hr |]. split.
  - now rewrite commands_run_app, He.
  - exists (l ++ pre), post. now rewrite <- app_assoc.
Qed.

Lemma fatal_in_dispatch w tool sql t path :
  In (EvRun (activation_cmd tool sql) pg_env) (log_of (dispatch t path) w) ->
  fatal w tool sql = true ->
  stops_after_recovery w tool sql (log_of (dispatch t path) w)
    (result_of (dispatch t path) w).
Proof.
  destruct t; cbn [dispatch].
  - apply fatal_in_pg_restore.
  - intros Hin _. apply in_commands_run in Hin.
    rewrite ogr2ogr_commands in Hin.
    destruct (lookup w "ogr2ogr"); [| destruct Hin].
    destruct Hin as [E | []]. symmetry in E.
    now apply activation_is_not_conversion in E.
  - apply fatal_in_psql.
  - run_step. intros [? | Hin] Hf; [discriminate |].
    apply stops_after_recovery_cons; [reflexivity |].
    now apply fatal_in_pg_restore.
Qed.

(** C3.  Whenever a statement of the extension activator fails (psql
    leaves a non-zero status) with an error text that has both "No such
    file or directory" and "postgis.control", the run ends with
    [sys.exit(1)]: the exit status is 1, the statement is followed by the
    recovery action (the installer is started or the browser is opened)
    and by no further command, and every command of the whole run is a
    statement of the activator, so that no restore, script import or
    conversion is ever started. *)
Theorem missing_extension_stops_the_run :
  forall (w : World) (tool sql : string) (rc : Z) (err : string),
    In (EvRun (activation_cmd tool sql) pg_env) (log_of main w) ->
    run_process w (activation_cmd tool sql) = Completed rc err ->
    rc <> 0%Z ->
    str_contains "No such file or directory" err = true ->
    str_contains "postgis.control" err = true ->
    result_of main w = Exc (SystemExit 1)
    /\ exit_status (result_of main w) = 1%Z
    /\ (exists pre post,
           log_of main w = pre ++ EvRun (activation_cmd tool sql) pg_env :: post
           /\ existsb recovery_action post = true
           /\ commands_run post = [])
    /\ (forall t p,
           ~ In (restore_cmd t p) (commands_run (log_of main w))
           /\ ~ In (script_cmd t p) (commands_run (log_of main w))
           /\ ~ In (t :: ogr2ogr_args p) (commands_run (log_of main w))).
Proof.
  intros w tool sql rc err Hin Hrun Hrc H1 H2.
  assert (Hf : fatal w tool sql = true).
  { unfold fatal, missing_postgis. rewrite Hrun, H1, H2.
    apply Z.eqb_neq in Hrc. now rewrite Hrc. }
  assert (H : stops_after_recovery w tool sql (log_of main w) (result_of main w)).
  { destruct (isfile w (resolved_path w) && nonempty (resolved_path w)) eqn:Hi.
    - apply andb_true_iff in Hi as [Hi Hn].
      assert (Hfound : input_found w (resolved_path w)) by (repeat split; auto).
      unfold log_of, result_of in *.
      rewrite (main_with_input w _ Hfound) in *. cbn [fst snd] in *.
      destruct Hin as [? | [? | Hin]]; try discriminate.
      apply in_app_or in Hin as [Hin | Hin].
      { pose proof (detect_file_type_events (resolved_path w) w) as Hd.
        rewrite forallb_forall in Hd. now apply Hd in Hin. }
      destruct Hin as [? | Hin]; [discriminate |].
      do 2 (apply stops_after_recovery_cons; [reflexivity |]).
      apply stops_after_recovery_app;
        [apply detect_file_type_runs_nothing |].
      apply stops_after_recovery_cons; [reflexivity |].
      now apply fatal_in_dispatch.
    - unfold log_of in Hin. rewrite (main_without_input w Hi) in Hin.
      destruct Hin as [? | [? | [? | []]]]; discriminate. }
  destruct H as (Hr & Hc & Hd). rewrite Hr.
  repeat split; auto. all: now apply only_activation_no_import.
Qed.

Lemma main_log w path :
  input_found w path ->
  log_of main w = preamble w path ++ log_of (dispatch (detected w path) path) w.
Proof.
  intros H. unfold log_of at 1. rewrite (main_with_input w path H).
  unfold preamble. cbn [fst app]. rewrite <- app_assoc. reflexivity.
Qed.

Lemma main_result w path :
  input_found w path ->
  result_of main w = result_of (dispatch (detected w path) path) w.
Proof.
  intros H. unfold result_of at 1. now rewrite (main_with_input w path H).
Qed.

Lemma preamble_runs_nothing w path : commands_run (preamble w path) = [].
Proof.
  unfold preamble. cbn [commands_run flat_map app].
  fold (commands_run (log_of (detect_file_type path) w
                        ++ [EvPrint Stdout
                              ("Tipo de archivo: "
                               ++ file_type_str (detected w path))])).
  now rewrite commands_run_app, detect_file_type_runs_nothing.
Qed.

Lemma main_commands w path :
  input_found w path ->
  commands_run (log_of main w)
  = commands_run (log_of (dispatch (detected w path) path) w).
Proof.
  intros H. now rewrite (main_log w path H), commands_run_app,
              preamble_runs_nothing.
Qed.

(** Without the input nothing is run. *)
Lemma main_input_cases w :
  input_found w (resolved_path w)
  \/ main w = ([EvPrint Stdout MSG_START; EvIsFile (resolved_path w);
                EvPrint Stderr MSG_NO_INPUT],
               Exc (SystemExit 1)).
Proof.
  destruct (isfile w (resolved_path w) && nonempty (resolved_path w)) eqn:Hi.
  - apply andb_true_iff in Hi as [Hi Hn]. left. repeat split; auto.
  - right. now apply main_without_input.
Qed.

(** ** Statements about the script import *)

(** C1, as stated, fails: the script import runs, psql leaves status 3, and
    the status of the process is 0. *)
Lemma script_failure_exit_status_is_zero :
  detected world_script_fails SAMPLE_INPUT = SQL_SCRIPT
  /\ commands_run (log_of main world_script_fails)
     = [activation_cmd "/usr/bin/psql" SQL_POSTGIS;
        activation_cmd "/usr/bin/psql" SQL_TOPOLOGY;
        script_cmd "/usr/bin/psql" SAMPLE_INPUT]
  /\ run_process world_script_fails (script_cmd "/usr/bin/psql" SAMPLE_INPUT)
     = Completed 3 "psql: error in script"
  /\ exit_status (result_of main world_script_fails) = 0%Z.
Proof. vm_compute. repeat split; reflexivity. Qed.

Lemma script_is_not_activation tool sql t p :
  script_cmd t p <> activation_cmd tool sql.
Proof. discriminate. Qed.

Lemma script_in_dispatch w t path tool p :
  In (script_cmd tool p) (commands_run (log_of (dispatch t path) w)) ->
  t = SQL_SCRIPT /\ p = path
  /\ (exists r, result_of force_enable_postgis w = Val r)
  /\ lookup w "psql" = Some tool /\ nonempty tool = true.
Proof.
  assert (Hact : ~ In (script_cmd tool p)
                     (commands_run (log_of force_enable_postgis w))).
  { intros H.
    destruct (only_activation_in _ _ (activator_runs_activation_only w) H)
      as (t' & s' & E).
    now apply script_is_not_activation in E. }
  destruct t; cbn [dispatch]; run_step;
    rewrite ?pg_restore_commands, ?psql_commands, ?ogr2ogr_commands;
    intros Hin.
  - apply in_app_or in Hin as [Hin | Hin]; [tauto |].
    destruct (result_of force_enable_postgis w); [| destruct Hin].
    destruct (truthy _); [| destruct Hin].
    destruct Hin as [E | []]. discriminate E.
  - destruct (lookup w "ogr2ogr"); [| destruct Hin].
    destruct Hin as [E | []]. discriminate E.
  - apply in_app_or in Hin as [Hin | Hin]; [tauto |].
    destruct (result_of force_enable_postgis w) as [r |]; [| destruct Hin].
    destruct (lookup w "psql") as [psql |]; [| destruct Hin].
    cbn [truthy found_at] in *.
    destruct (nonempty psql) eqn:Hn; [| destruct Hin].
    destruct Hin as [[= -> ->] | []]. repeat split; eauto.
  - apply in_app_or in Hin as [Hin | Hin]; [tauto |].
    destruct (result_of force_enable_postgis w); [| destruct Hin].
    destruct (truthy _); [| destruct Hin].
    destruct Hin as [E | []]. discriminate E.
Qed.

(** C1, amended.  In every run in which psql is started on the script file
    and leaves a non-zero status [rc], the failure is reported: the line
    with the code [rc] goes to the error stream right after the psql run
    and is the last thing the script does.  The script then ends
    normally: its own exit status is 0. *)
Theorem script_failure_is_reported_not_propagated :
  forall (w : World) (tool path : string) (rc : Z) (err : string),
    In (script_cmd tool path) (commands_run (log_of main w)) ->
    run_process w (script_cmd tool path) = Completed rc err ->
    rc <> 0%Z ->
    result_of main w = Val tt
    /\ exit_status (result_of main w) = 0%Z
    /\ exists pre,
         log_of main w
         = pre ++ [EvRun (script_cmd tool path) pg_env;
                   EvPrint Stderr (MSG_PSQL_FAILED rc)].
Proof.
  intros w tool path rc err Hin Hrun Hrc.
  apply Z.eqb_neq in Hrc.
  destruct (main_input_cases w) as [Hfound | Hno].
  2: { unfold log_of in Hin. rewrite Hno in Hin. destruct Hin. }
  rewrite (main_commands w _ Hfound) in Hin.
  rewrite (main_log w _ Hfound), (main_result w _ Hfound).
  apply script_in_dispatch in Hin as (-> & -> & (r & Hr) & Hl & Hne).
  cbn [dispatch].
  destruct (psql_after_activation (resolved_path w) w r tool Hr Hl Hne)
    as [Hlog Hres].
  rewrite Hlog, Hres, Hrun, Hrc. repeat split.
  exists (preamble w (resolved_path w)
            ++ EvPrint Stdout MSG_PASO2_SCRIPT :: log_of force_enable_postgis w
            ++ log_of (find_executable "psql") w).
  rewrite <- app_assoc. f_equal. cbn [app]. f_equal.
  rewrite <- app_assoc. reflexivity.
Qed.

Lemma script_failure_is_reported_witness :
  result_of main world_script_fails = Val tt
  /\ exit_status (result_of main world_script_fails) = 0%Z
  /\ exists pre,
       log_of main world_script_fails
       = pre ++ [EvRun (script_cmd "/usr/bin/psql" SAMPLE_INPUT) pg_env;
                 EvPrint Stderr (MSG_PSQL_FAILED 3)].
Proof.
  apply (script_failure_is_reported_not_propagated world_script_fails
           "/usr/bin/psql" SAMPLE_INPUT 3 "psql: error in script").
  - vm_compute. auto.
  - vm_compute. reflexivity.
  - lia.
Defined.

(** ** Statements about the detector *)

(** C2, as stated, fails: the magic string lies within the first 128
    bytes, the buffer does not start with the dump marker, and the
    detector answers UNKNOWN. *)
Lemma shifted_sqlite_magic_is_unknown :
  file_bytes world_shifted_sqlite SAMPLE_INPUT = Some SHIFTED_SQLITE
  /\ bytes_contains SQLITE_MAGIC (firstn 128 SHIFTED_SQLITE) = true
  /\ bytes_startswith PGDMP SHIFTED_SQLITE = false
  /\ result_of (detect_file_type SAMPLE_INPUT) world_shifted_sqlite
     = Val UNKNOWN.
Proof. vm_compute. repeat split; reflexivity. Qed.

(** C2, amended.  The detector looks at the first 15 bytes only: every
    readable file with the SQLite magic string within its first 15 bytes
    (which is to say, at the very start: the string is 15 bytes long) is
    classified as GEOPACKAGE, after a single read; such a buffer never
    starts with the dump marker. *)
Theorem sqlite_magic_in_header_is_geopackage :
  forall (w : World) (path : string) (b : bytes),
    file_bytes w path = Some b ->
    bytes_contains SQLITE_MAGIC (firstn 15 b) = true ->
    result_of (detect_file_type path) w = Val GEOPACKAGE
    /\ log_of (detect_file_type path) w = [EvOpen path ReadBinary]
    /\ bytes_startswith SQLITE_MAGIC b = true
    /\ bytes_startswith PGDMP b = false.
Proof.
  intros w path b Hb Hs.
  destruct (detect_sqlite w path b Hb Hs) as [Hlog Hd].
  rewrite detect_file_type_val, Hd. repeat split; auto.
  - unfold bytes_startswith.
    rewrite <- (starts_with_firstn Byte.eqb SQLITE_MAGIC b 15) by (simpl; lia).
    apply is_infix_tight; [apply firstn_le_length | exact Hs].
  - unfold bytes_startswith.
    rewrite <- (starts_with_firstn Byte.eqb PGDMP b 15) by (simpl; lia).
    apply sqlite_header_is_not_pgdmp; [apply firstn_le_length | exact Hs].
Qed.

Lemma sqlite_magic_in_header_witness :
  result_of (detect_file_type SAMPLE_INPUT) world_geopackage = Val GEOPACKAGE.
Proof.
  apply (sqlite_magic_in_header_is_geopackage world_geopackage SAMPLE_INPUT
           (bytes_of_string "SQLite format 3 and the pages"));
    vm_compute; reflexivity.
Defined.

(** C9.  A readable file that does not start with the dump marker and has
    no SQLite magic string in its first [n] bytes, for any window
    [n >= 15] (the detector's own 15, the 128 of the specification), is
    classified as SQL_SCRIPT as soon as the upper-cased first 100
    characters of its text (UTF-8, undecodable bytes dropped) contain
    "CREATE", "SET" or "--". *)
Theorem sql_markers_make_a_script :
  forall (w : World) (path : string) (b : bytes) (n : nat),
    file_bytes w path = Some b ->
    bytes_startswith PGDMP b = false ->
    15 <= n ->
    bytes_contains SQLITE_MAGIC (firstn n b) = false ->
    text_contains (text_of_ascii "CREATE")
      (str_upper w (firstn 100 (decode_text b))) = true
    \/ text_contains (text_of_ascii "SET")
         (str_upper w (firstn 100 (decode_text b))) = true
    \/ text_contains (text_of_ascii "--")
         (str_upper w (firstn 100 (decode_text b))) = true ->
    result_of (detect_file_type path) w = Val SQL_SCRIPT.
Proof.
  intros w path b n Hb Hp Hn Hs Hmark.
  assert (Hs15 : bytes_contains SQLITE_MAGIC (firstn 15 b) = false).
  { destruct (bytes_contains SQLITE_MAGIC (firstn 15 b)) eqn:E; auto.
    apply (is_infix_firstn_mono Byte.eqb _ _ 15 n Hn) in E.
    unfold bytes_contains in Hs. congruence. }
  destruct (detect_text w path b Hb Hp Hs15) as [_ Hd].
  rewrite detect_file_type_val, Hd.
  unfold looks_like_sql, text_start.
  destruct Hmark as [-> | [-> | ->]]; rewrite ?orb_true_r; reflexivity.
Qed.

Lemma sql_markers_make_a_script_witness :
  result_of (detect_file_type SAMPLE_INPUT) world_lowercase_script
  = Val SQL_SCRIPT.
Proof.
  apply (sql_markers_make_a_script world_lowercase_script SAMPLE_INPUT
           (bytes_of_string "create table parcels (id integer);") 128).
  - vm_compute. reflexivity.
  - vm_compute. reflexivity.
  - lia.
  - vm_compute. reflexivity.
  - left. vm_compute. reflexivity.
Defined.

(** ** Statements about the resolver and the dispatch *)

(** C8.  The resolver returns a path only if it is the configured name
    [GisTPI] joined to the directory of the script and a regular file is
    there.  When there is none the resolver returns nothing and the run
    ends with exit status 1 after the message on the error stream, with
    no file opened: detection is not attempted. *)
Theorem resolver_and_missing_input :
  forall w : World,
    (forall p,
        result_of (resolve_input_file INPUT_FILENAME) w = Val (Some p) ->
        p = os_path_join w (script_dir w) "GisTPI" /\ isfile w p = true)
    /\ (isfile w (os_path_join w (script_dir w) "GisTPI") = false ->
        result_of (resolve_input_file INPUT_FILENAME) w = Val None
        /\ result_of main w = Exc (SystemExit 1)
        /\ exit_status (result_of main w) = 1%Z
        /\ log_of main w
           = [EvPrint Stdout MSG_START;
              EvIsFile (os_path_join w (script_dir w) "GisTPI");
              EvPrint Stderr MSG_NO_INPUT]
        /\ forallb no_open_event (log_of main w) = true).
Proof.
  intros w. fold INPUT_FILENAME. fold (resolved_path w).
  rewrite result_resolve_input_file. unfold resolved. split.
  - intros p. destruct (isfile w (resolved_path w)) eqn:E; [| discriminate].
    intros [= <-]. auto.
  - intros H. rewrite H. unfold log_of, result_of.
    rewrite main_without_input by now rewrite H.
    repeat split; reflexivity.
Qed.

Lemma resolver_and_missing_input_witness :
  result_of (resolve_input_file INPUT_FILENAME) world_no_input = Val None
  /\ result_of main world_no_input = Exc (SystemExit 1)
  /\ exit_status (result_of main world_no_input) = 1%Z
  /\ log_of main world_no_input
     = [EvPrint Stdout MSG_START; EvIsFile SAMPLE_INPUT;
        EvPrint Stderr MSG_NO_INPUT]
  /\ forallb no_open_event (log_of main world_no_input) = true.
Proof.
  apply (proj2 (resolver_and_missing_input world_no_input)).
  vm_compute. reflexivity.
Defined.

(** C10.  For an input the detector calls UNKNOWN the dispatch is the
    dispatch of a binary dump on the same file in the same world, after
    one more line on the output, the warning: the same events follow
    (same activation, same restore command), and the run ends the same
    way. *)
Theorem unknown_is_dispatched_as_binary_dump :
  forall (w : World) (input_path : string),
    log_of (dispatch UNKNOWN input_path) w
    = EvPrint Stdout MSG_UNKNOWN :: log_of (dispatch PG_DUMP_BINARY input_path) w
    /\ result_of (dispatch UNKNOWN input_path) w
       = result_of (dispatch PG_DUMP_BINARY input_path) w
    /\ commands_run (log_of (dispatch UNKNOWN input_path) w)
       = commands_run (log_of (dispatch PG_DUMP_BINARY input_path) w).
Proof.
  intros w input_path. cbn [dispatch]. run_step. auto.
Qed.

(** ** Statements about the import paths *)

(** C4, as stated, fails: the input starts with the dump marker and is
    classified as a binary dump, yet no statement of the activator is
    run; the restore is the only command. *)
Lemma dump_restored_without_activation :
  bytes_startswith PGDMP PGDMP_FILE = true
  /\ file_bytes world_dump_without_psql SAMPLE_INPUT = Some PGDMP_FILE
  /\ detected world_dump_without_psql SAMPLE_INPUT = PG_DUMP_BINARY
  /\ commands_run (log_of main world_dump_without_psql)
     = [restore_cmd "/usr/bin/pg_restore" SAMPLE_INPUT].
Proof. vm_compute. repeat split; reflexivity. Qed.

(** The restore once the activator has let the run go on. *)
Lemma pg_restore_after_activation path w psql pg_restore :
  lookup w "psql" = Some psql -> nonempty psql = true ->
  fatal w psql SQL_POSTGIS = false -> fatal w psql SQL_TOPOLOGY = false ->
  lookup w "pg_restore" = Some pg_restore -> nonempty pg_restore = true ->
  commands_run (log_of (import_with_pg_restore path) w)
  = [activation_cmd psql SQL_POSTGIS; activation_cmd psql SQL_TOPOLOGY;
     restore_cmd pg_restore path]
  /\ result_of (import_with_pg_restore path) w = Val tt.
Proof.
  intros Hp Hpn H1 H2 Hr Hrn.
  destruct (activator_runs_two w psql Hp Hpn H1 H2) as [Hc Hres].
  rewrite pg_restore_commands, pg_restore_result, Hc, Hres, Hr.
  cbn [truthy found_at]. rewrite Hrn. auto.
Qed.

(** C4, amended.  For every input file that is found, can be read and
    starts with [PGDMP]: the detector answers PG_DUMP_BINARY; and when
    psql is found, neither statement of the activator fails for want of
    the extension's files, and pg_restore is found, the commands of the
    run are, in this order, the two enable-extension statements through
    psql and then pg_restore with the connection parameters, the flags
    [-v -c --if-exists --no-owner --no-acl] and the resolved path; the
    run ends normally. *)
Theorem binary_dump_is_activated_then_restored :
  forall (w : World) (path : string) (b : bytes) (psql pg_restore : string),
    input_found w path ->
    file_bytes w path = Some b ->
    bytes_startswith PGDMP b = true ->
    lookup w "psql" = Some psql -> nonempty psql = true ->
    fatal w psql "CREATE EXTENSION IF NOT EXISTS postgis CASCADE;" = false ->
    fatal w psql "CREATE EXTENSION IF NOT EXISTS postgis_topology;" = false ->
    lookup w "pg_restore" = Some pg_restore -> nonempty pg_restore = true ->
    result_of (detect_file_type path) w = Val PG_DUMP_BINARY
    /\ commands_run (log_of main w)
       = [ [psql; "-h"; "localhost"; "-p"; "5433"; "-U"; "postgres";
            "-d"; "geoserver";
            "-c"; "CREATE EXTENSION IF NOT EXISTS postgis CASCADE;"];
           [psql; "-h"; "localhost"; "-p"; "5433"; "-U"; "postgres";
            "-d"; "geoserver";
            "-c"; "CREATE EXTENSION IF NOT EXISTS postgis_topology;"];
           [pg_restore; "-h"; "localhost"; "-p"; "5433"; "-U"; "postgres";
            "-d"; "geoserver";
            "-v"; "-c"; "--if-exists"; "--no-owner"; "--no-acl"; path] ]
    /\ result_of main w = Val tt.
Proof.
  intros w path b psql pg_restore Hfound Hb Hstart Hp Hpn H1 H2 Hr Hrn.
  destruct (detect_pgdmp w path b Hb Hstart) as [_ Hd].
  rewrite detect_file_type_val, (main_commands w path Hfound),
    (main_result w path Hfound), Hd.
  cbn [dispatch].
  destruct (pg_restore_after_activation path w psql pg_restore
              Hp Hpn H1 H2 Hr Hrn) as [-> ->].
  repeat split; reflexivity.
Qed.

Lemma binary_dump_witness :
  commands_run (log_of main world_dump)
  = [activation_cmd "/usr/bin/psql" SQL_POSTGIS;
     activation_cmd "/usr/bin/psql" SQL_TOPOLOGY;
     restore_cmd "/usr/bin/pg_restore" SAMPLE_INPUT].
Proof.
  apply (binary_dump_is_activated_then_restored world_dump SAMPLE_INPUT
           PGDMP_FILE "/usr/bin/psql" "/usr/bin/pg_restore");
    vm_compute; auto.
Defined.

(** C5, as stated, fails: the run takes the spatial-package path and the
    conversion tool is not started; the run starts no command at all. *)
Lemma geopackage_without_conversion :
  detected world_geopackage_without_ogr2ogr SAMPLE_INPUT = GEOPACKAGE
  /\ In (EvPrint Stdout MSG_OGR2OGR)
        (log_of main world_geopackage_without_ogr2ogr)
  /\ commands_run (log_of main world_geopackage_without_ogr2ogr) = [].
Proof. vm_compute. repeat split; auto 10. Qed.

Lemma ogr2ogr_events path : all_events not_activation_event (import_with_ogr2ogr path).
Proof.
  unfold import_with_ogr2ogr. all_events_auto.
  - unfold find_executable. all_events_auto.
    generalize common_paths as ps.
    induction ps as [| p ps IH]; cbn [search_common_paths]; all_events_auto.
    exact IH.
  - match goal with
    | |- all_events _ (subprocess_run_args (?tool :: _) _ _) =>
        destruct tool as [ogr |]
    end; unfold subprocess_run_args; cbn [all_str map ogr2ogr_args].
    + apply all_events_run. cbn [not_activation_event].
      destruct (is_activation_cmd _) eqn:E; [| reflexivity].
      apply is_activation_cmd_spec in E as (tool & sql & E). discriminate E.
    + apply all_events_raise.
Qed.

(** C5, amended.  In every run that takes the spatial-package path the
    activator is not entered: its heading is never printed, psql is
    never looked for and no command of the run is an SQL statement
    through psql.  When ogr2ogr is found, the one command of the run,
    and its last event, is ogr2ogr writing to the PostgreSQL database
    with [-overwrite] and [-nln GisTPI_import]. *)
Theorem geopackage_is_converted_without_activation :
  forall (w : World) (path : string),
    input_found w path ->
    detected w path = GEOPACKAGE ->
    forallb not_activation_event (log_of main w) = true
    /\ forall ogr2ogr,
         lookup w "ogr2ogr" = Some ogr2ogr ->
         commands_run (log_of main w)
         = [ [ogr2ogr; "-f"; "PostgreSQL";
              "PG:host=localhost port=5433 dbname=geoserver user=postgres password=postgres";
              path; "-overwrite"; "-nln"; "GisTPI_import"] ]
         /\ exists pre,
              log_of main w
              = pre ++ [EvRun (ogr2ogr :: ogr2ogr_args path) []].
Proof.
  intros w path Hfound Hd. split.
  - rewrite (main_log w path Hfound), Hd, forallb_app. cbn [dispatch].
    rewrite (ogr2ogr_events path w), andb_true_r.
    unfold preamble. rewrite Hd. cbn [forallb not_activation_event].
    rewrite forallb_app. cbn [forallb not_activation_event].
    pose proof (detect_file_type_events path w) as He.
    rewrite forallb_forall in He.
    assert (Hq : forallb not_activation_event
                   (log_of (detect_file_type path) w) = true).
    { apply forallb_forall. intros e Hin. specialize (He e Hin).
      destruct e; try discriminate. reflexivity. }
    rewrite Hq. reflexivity.
  - intros ogr2ogr Ho.
    rewrite (main_commands w path Hfound), (main_log w path Hfound), Hd.
    cbn [dispatch]. rewrite ogr2ogr_commands, Ho.
    destruct (ogr2ogr_found path w ogr2ogr Ho) as [-> _].
    split; [reflexivity |].
    exists (preamble w path
              ++ EvPrint Stdout MSG_OGR2OGR
                   :: log_of (find_executable "ogr2ogr") w).
    rewrite <- app_assoc. reflexivity.
Qed.

Lemma geopackage_witness :
  commands_run (log_of main world_geopackage)
  = [ "/usr/bin/ogr2ogr" :: ogr2ogr_args SAMPLE_INPUT ].
Proof.
  apply (proj2 (geopackage_is_converted_without_activation world_geopackage
                  SAMPLE_INPUT
                  ltac:(vm_compute; auto) ltac:(vm_compute; reflexivity))
           "/usr/bin/ogr2ogr").
  vm_compute. reflexivity.
Defined.

(** C6: the conversion stage does not do what the other stages do.  In
    a run that takes the spatial-package path with ogr2ogr nowhere to
    be found, the script prints nothing on the error stream and ends on
    an exception nobody catches, the [TypeError] of [subprocess.run]
    handed a command line that starts with [None]; the exit status is
    1. *)
Theorem missing_ogr2ogr_is_not_reported :
  forall (w : World) (path : string),
    input_found w path ->
    detected w path = GEOPACKAGE ->
    lookup w "ogr2ogr" = None ->
    result_of main w = Exc TypeError
    /\ exit_status (result_of main w) = 1%Z
    /\ forallb not_stderr (log_of main w) = true
    /\ commands_run (log_of main w) = [].
Proof.
  intros w path Hfound Hd Ho.
  rewrite (main_commands w path Hfound), (main_log w path Hfound),
    (main_result w path Hfound), Hd.
  cbn [dispatch]. rewrite ogr2ogr_commands, Ho.
  destruct (ogr2ogr_missing path w Ho) as [-> ->].
  repeat split.
  unfold preamble. rewrite Hd.
  cbn [forallb not_stderr andb app]. rewrite !forallb_app.
  cbn [forallb not_stderr andb].
  assert (H1 : forallb not_stderr (log_of (detect_file_type path) w) = true).
  { pose proof (detect_file_type_events path w) as He.
    rewrite forallb_forall in *. intros e Hin. specialize (He e Hin).
    destruct e; try discriminate. reflexivity. }
  assert (H2 : forallb not_stderr (log_of (find_executable "ogr2ogr") w) = true).
  { pose proof (find_executable_log "ogr2ogr" w) as He.
    rewrite forallb_forall in *. intros e Hin. specialize (He e Hin).
    destruct e; try discriminate; reflexivity. }
  now rewrite H1, H2.
Qed.

Lemma missing_ogr2ogr_witness :
  result_of main world_geopackage_without_ogr2ogr = Exc TypeError
  /\ exit_status (result_of main world_geopackage_without_ogr2ogr) = 1%Z
  /\ forallb not_stderr (log_of main world_geopackage_without_ogr2ogr) = true
  /\ commands_run (log_of main world_geopackage_without_ogr2ogr) = [].
Proof.
  apply (missing_ogr2ogr_is_not_reported world_geopackage_without_ogr2ogr
           SAMPLE_INPUT); vm_compute; auto.
Defined.

(** The three other stages report a missing tool on the error stream and
    return. *)
Lemma pg_restore_without_tool path w r :
  result_of force_enable_postgis w = Val r ->
  truthy (lookup w "pg_restore") = false ->
  log_of (import_with_pg_restore path) w
  = EvPrint Stdout MSG_PASO2_RESTORE :: log_of force_enable_postgis w
      ++ log_of (find_executable "pg_restore") w
      ++ [EvPrint Stderr MSG_NO_PG_RESTORE]
  /\ result_of (import_with_pg_restore path) w = Val tt.
Proof.
  intros Hr H. unfold import_with_pg_restore. run_step. rewrite Hr. run_step.
  rewrite H. run_step. auto.
Qed.

(** C7, as stated, fails on the script path: psql cannot be found,
    pg_restore and ogr2ogr can, the input is a script, and the run
    attempts no import: it starts no command. *)
Lemma script_without_psql_imports_nothing :
  lookup world_script_without_psql "psql" = None
  /\ lookup world_script_without_psql "pg_restore" = Some "/usr/bin/pg_restore"
  /\ detected world_script_without_psql SAMPLE_INPUT = SQL_SCRIPT
  /\ commands_run (log_of main world_script_without_psql) = []
  /\ commands_run (log_of (import_with_psql SAMPLE_INPUT)
                     world_script_without_psql) = [].
Proof. vm_compute. repeat split; reflexivity. Qed.

(** C7, amended.  When psql cannot be found the activator says so on the
    error stream, runs nothing and returns [False]; the process goes on.
    The binary-dump path then looks for pg_restore and, if it finds it,
    runs the restore as the only command; it ends normally.  The script
    path looks for psql again, does not find it either, says so on the
    error stream and ends normally without having run anything. *)
Theorem without_psql_only_the_restore_is_attempted :
  forall (w : World) (path : string),
    truthy (lookup w "psql") = false ->
    (result_of force_enable_postgis w = Val (Some false)
     /\ In (EvPrint Stderr MSG_NO_PSQL_ACTIVATE) (log_of force_enable_postgis w)
     /\ commands_run (log_of force_enable_postgis w) = [])
    /\ (commands_run (log_of (import_with_pg_restore path) w)
        = (if truthy (lookup w "pg_restore")
           then [restore_cmd (found_at (lookup w "pg_restore")) path]
           else [])
        /\ result_of (import_with_pg_restore path) w = Val tt)
    /\ (commands_run (log_of (import_with_psql path) w) = []
        /\ In (EvPrint Stderr MSG_NO_PSQL) (log_of (import_with_psql path) w)
        /\ result_of (import_with_psql path) w = Val tt).
Proof.
  intros w path H.
  destruct (activator_without_psql w H) as [Hlog Hres].
  assert (Hc : commands_run (log_of force_enable_postgis w) = []).
  { rewrite Hlog. now run_step. }
  split; [| split].
  - repeat split; auto. rewrite Hlog. right. apply in_or_app. right. now left.
  - rewrite pg_restore_commands, pg_restore_result, Hc, Hres. auto.
  - rewrite psql_commands, Hc, Hres, H.
    destruct (psql_without_psql path w H) as [-> ->].
    repeat split. right. apply in_or_app. right. apply in_or_app. right.
    now left.
Qed.

Lemma without_psql_witness :
  commands_run (log_of (import_with_pg_restore SAMPLE_INPUT)
                  world_dump_without_psql)
  = [restore_cmd "/usr/bin/pg_restore" SAMPLE_INPUT]
  /\ result_of (import_with_pg_restore SAMPLE_INPUT) world_dump_without_psql
     = Val tt.
Proof.
  apply (proj1 (proj2 (without_psql_only_the_restore_is_attempted
                         world_dump_without_psql SAMPLE_INPUT
                         ltac:(vm_compute; reflexivity)))).
Defined.

Lemma missing_extension_witness :
  result_of main world_without_postgis = Exc (SystemExit 1)
  /\ exit_status (result_of main world_without_postgis) = 1%Z.
Proof.
  destruct (missing_extension_stops_the_run world_without_postgis
              "/usr/bin/psql" SQL_POSTGIS 1 MISSING_CONTROL_FILE)
    as (Hr & He & _).
  - vm_compute. repeat (first [left; reflexivity | right]).
  - reflexivity.
  - lia.
  - vm_compute. reflexivity.
  - vm_compute. reflexivity.
  - split; [exact Hr | exact He].
Defined.

(** * Further facts

    Properties of the script beyond the statements above. *)

(** ** Further facts: looking for a tool *)

Lemma insert_desc_in x y l : In x (insert_desc y l) <-> x = y \/ In x l.
Proof.
  induction l as [| z l IH]; simpl.
  - intuition congruence.
  - destruct (String.leb z y); simpl; [intuition congruence |].
    rewrite IH. intuition congruence.
Qed.

Lemma sort_reverse_in x l : In x (sort_reverse l) <-> In x l.
Proof.
  induction l as [| y l IH]; simpl; [tauto |].
  rewrite insert_desc_in, IH. intuition congruence.
Qed.

Lemma sort_reverse_nil l : sort_reverse l = [] <-> l = [].
Proof.
  split; [| now intros ->].
  destruct l as [| y l]; auto. intros H.
  assert (Hin : In y (sort_reverse (y :: l))) by (apply sort_reverse_in; now left).
  rewrite H in Hin. destruct Hin.
Qed.

Lemma leb_refl s : String.leb s s = true.
Proof. now destruct (String.leb_total s s). Qed.

Lemma ascii_compare_refl c : Ascii.compare c c = Eq.
Proof. unfold Ascii.compare. apply N.compare_refl. Qed.

Lemma ascii_compare_lt_trans a b c :
  Ascii.compare a b = Lt -> Ascii.compare b c = Lt -> Ascii.compare a c = Lt.
Proof.
  unfold Ascii.compare. rewrite !N.compare_lt_iff. apply N.lt_trans.
Qed.

Lemma compare_refl s : String.compare s s = Eq.
Proof.
  induction s as [| c s IH]; simpl; auto. now rewrite ascii_compare_refl.
Qed.

Lemma compare_lt_trans a b c :
  String.compare a b = Lt -> String.compare b c = Lt ->
  String.compare a c = Lt.
Proof.
  revert b c. induction a as [| x a IH]; intros [| y b] [| z c]; simpl;
    try discriminate; auto.
  destruct (Ascii.compare x y) eqn:Exy; try discriminate;
    destruct (Ascii.compare y z) eqn:Eyz; try discriminate; intros Hab Hbc.
  - apply Ascii.compare_eq_iff in Exy, Eyz. subst.
    rewrite ascii_compare_refl. now apply (IH b c).
  - apply Ascii.compare_eq_iff in Exy. subst. now rewrite Eyz.
  - apply Ascii.compare_eq_iff in Eyz. subst. now rewrite Exy.
  - now rewrite (ascii_compare_lt_trans x y z Exy Eyz).
Qed.

Lemma leb_trans a b c :
  String.leb a b = true -> String.leb b c = true -> String.leb a c = true.
Proof.
  unfold String.leb. intros Hab Hbc.
  destruct (String.compare a b) eqn:Eab; try discriminate;
    destruct (String.compare b c) eqn:Ebc; try discriminate.
  - apply String.compare_eq_iff in Eab, Ebc. subst. now rewrite compare_refl.
  - apply String.compare_eq_iff in Eab. subst. now rewrite Ebc.
  - apply String.compare_eq_iff in Ebc. subst. now rewrite Eab.
  - now rewrite (compare_lt_trans a b c Eab Ebc).
Qed.

(** The head of the list sorted in reverse is its greatest item. *)
Lemma sort_reverse_head l m r :
  sort_reverse l = m :: r ->
  In m l /\ forall x, In x l -> String.leb x m = true.
Proof.
  intros H. split.
  { apply sort_reverse_in. rewrite H. now left. }
  revert m r H. induction l as [| y l IH]; intros m r H x Hx; [destruct Hx |].
  simpl in H. destruct (sort_reverse l) as [| m' r'] eqn:E.
  - apply (proj1 (sort_reverse_nil l)) in E. subst. injection H as <- <-.
    destruct Hx as [<- | []]. apply leb_refl.
  - simpl in H. destruct (String.leb m' y) eqn:L.
    + injection H as <- <-. destruct Hx as [<- | Hx]; [apply leb_refl |].
      eapply leb_trans; [apply (IH m' r' eq_refl x Hx) | exact L].
    + injection H as <- <-. destruct Hx as [<- | Hx].
      * destruct (String.leb_total y m') as [T | T]; congruence.
      * apply (IH m' r' eq_refl x Hx).
Qed.

Lemma search_common_paths_none_iff ps name w :
  result_of (search_common_paths ps name) w = Val None <->
  forall p, In p ps -> glob w (os_path_join w p (name ++ ".exe")) = [].
Proof.
  split; [| apply search_common_paths_none].
  induction ps as [| q ps IH]; cbn [search_common_paths]; [intros _ p [] |].
  run_step. destruct (sort_reverse _) as [| first rest] eqn:E; run_step.
  - intros H p [<- | Hp]; [now apply (proj1 (sort_reverse_nil _)) | now apply IH].
  - discriminate.
Qed.

(** X1.  [find_executable] answers [None] exactly when the tool is not on
    the search path and not one of the four fallback patterns matches
    anything. *)
Theorem find_executable_none_iff :
  forall (w : World) (name : string),
    result_of (find_executable name) w = Val None <->
    truthy (which w name) = false
    /\ forall p, In p common_paths ->
                 glob w (os_path_join w p (name ++ ".exe")) = [].
Proof.
  intros w name. unfold find_executable. run_step.
  destruct (which w name) as [p |] eqn:Hw; cbn [truthy].
  - destruct (nonempty p) eqn:Hn; run_step.
    + split; [intros [= E]; subst; discriminate | intros [? _]; discriminate].
    + rewrite search_common_paths_none_iff. intuition.
  - rewrite search_common_paths_none_iff. intuition.
Qed.

Lemma search_common_paths_first_match pre p post name w :
  (forall q, In q pre -> glob w (os_path_join w q (name ++ ".exe")) = []) ->
  result_of (search_common_paths (pre ++ p :: post) name) w
  = match sort_reverse (glob w (os_path_join w p (name ++ ".exe"))) with
    | first :: _ => Val (Some first)
    | [] => result_of (search_common_paths post name) w
    end
  /\ log_of (search_common_paths (pre ++ p :: post) name) w
     = map (fun q => EvGlob (os_path_join w q (name ++ ".exe"))) (pre ++ [p])
       ++ match sort_reverse (glob w (os_path_join w p (name ++ ".exe"))) with
          | first :: _ => []
          | [] => log_of (search_common_paths post name) w
          end.
Proof.
  induction pre as [| q pre IH]; intros H; cbn [app search_common_paths map];
    run_step.
  - destruct (sort_reverse _); run_step; auto.
  - rewrite (H q (or_introl eq_refl)). cbn [sort_reverse fold_right].
    destruct IH as [-> ->]; [intros q' Hq'; apply H; now right |]. auto.
Qed.

(** X2.  When the tool is not on the search path, the answer comes from
    the first fallback pattern that matches something, later patterns are
    not tried, and among the matches the greatest one in the order of
    strings is returned (the most recent version directory). *)
Theorem find_executable_fallback_is_greatest_match :
  forall (w : World) (name : string) (pre : list string) (p : string)
         (post : list string),
    common_paths = pre ++ p :: post ->
    truthy (which w name) = false ->
    (forall q, In q pre -> glob w (os_path_join w q (name ++ ".exe")) = []) ->
    glob w (os_path_join w p (name ++ ".exe")) <> [] ->
    exists m,
      result_of (find_executable name) w = Val (Some m)
      /\ In m (glob w (os_path_join w p (name ++ ".exe")))
      /\ (forall x, In x (glob w (os_path_join w p (name ++ ".exe"))) ->
                    String.leb x m = true)
      /\ log_of (find_executable name) w
         = EvWhich name
             :: map (fun q => EvGlob (os_path_join w q (name ++ ".exe")))
                  (pre ++ [p]).
Proof.
  intros w name pre p post Hcp Hw Hpre Hms.
  unfold find_executable. run_step. rewrite Hw, Hcp.
  destruct (search_common_paths_first_match pre p post name w Hpre) as [-> ->].
  destruct (sort_reverse _) as [| m r] eqn:E.
  - now apply (proj1 (sort_reverse_nil _)) in E.
  - exists m. destruct (sort_reverse_head _ m r E) as [Hin Hmax].
    rewrite app_nil_r. auto.
Qed.

Lemma find_executable_fallback_is_greatest_match_witness :
  exists m,
    result_of (find_executable "psql") world_windows = Val (Some m)
    /\ In m (glob world_windows WINDOWS_PSQL_GLOB)
    /\ (forall x, In x (glob world_windows WINDOWS_PSQL_GLOB) ->
                  String.leb x m = true)
    /\ log_of (find_executable "psql") world_windows
       = [EvWhich "psql";
          EvGlob "C:\Program Files\PostgreSQL\*\bin\psql.exe";
          EvGlob WINDOWS_PSQL_GLOB].
Proof.
  apply (find_executable_fallback_is_greatest_match world_windows "psql"
           ["C:\Program Files\PostgreSQL\*\bin"]
           "C:\Program Files (x86)\PostgreSQL\*\bin"
           ["C:\OSGeo4W\bin"; "C:\Program Files\QGIS*\bin"]).
  - reflexivity.
  - reflexivity.
  - intros q [<- | []]. vm_compute. reflexivity.
  - vm_compute. discriminate.
Defined.

(** ** Further facts: the recovery action *)

Section CountEvents.
Context (P : event -> bool).

Lemma count_events_none {A} (m : M A) :
  all_events (fun e => negb (P e)) m -> count_events P m 0.
Proof.
  intros H w. specialize (H w). induction (log_of m w) as [| e l IH]; auto.
  simpl in *. apply andb_true_iff in H as [He Hl].
  apply negb_true_iff in He. rewrite He. auto.
Qed.

Lemma count_events_bind_tail {A B} (m : M A) (f : A -> M B) n :
  count_events P m n -> (forall a, count_events P (f a) 0) ->
  count_events P (bind m f) n.
Proof.
  intros Hm Hf w. rewrite log_bind, filter_app, length_app, Hm.
  destruct (result_of m w); [rewrite Hf |]; simpl; lia.
Qed.

Lemma count_events_bind_head {A B} (m : M A) (f : A -> M B) n :
  count_events P m 0 -> never_raises m ->
  (forall a, count_events P (f a) n) ->
  count_events P (bind m f) n.
Proof.
  intros Hm Hr Hf w. rewrite log_bind, filter_app, length_app, Hm.
  destruct (never_raises_val m w Hr) as [a ->]. now rewrite Hf.
Qed.

Lemma count_events_try {A} (m : M A) c (h : exn -> M A) n :
  count_events P m n -> (forall e, count_events P (h e) 0) ->
  count_events P (try_except m c h) n.
Proof.
  intros Hm Hh w. rewrite log_try_except, filter_app, length_app, Hm.
  destruct (result_of m w) as [a | e]; [simpl; lia |].
  destruct (c e); [rewrite Hh |]; simpl; lia.
Qed.

Lemma count_events_popen cmd :
  P (EvPopen cmd) = true -> count_events P (subprocess_Popen cmd) 1.
Proof. intros H w. simpl. now rewrite H. Qed.

Lemma count_events_webopen url :
  P (EvWebOpen url) = true -> count_events P (webbrowser_open url) 1.
Proof. intros H w. simpl. now rewrite H. Qed.

End CountEvents.

Ltac count_none := apply count_events_none; all_events_auto.

Ltac count_events_step :=
  lazymatch goal with
  | |- count_events _ (let _ := _ in _) _ => cbv zeta
  | |- count_events _ (match ?x with _ => _ end) _ => destruct x
  | |- count_events _ (try_except _ _ _) _ =>
      apply count_events_try; [| intros; count_none]
  | |- count_events _ (bind (subprocess_Popen _) _) _ =>
      apply count_events_bind_tail;
      [apply count_events_popen; reflexivity | intros; count_none]
  | |- count_events _ (bind (webbrowser_open _) _) _ =>
      apply count_events_bind_tail;
      [apply count_events_webopen; reflexivity | intros; count_none]
  | |- count_events _ (bind _ _) _ =>
      apply count_events_bind_head;
      [ count_none | unfold never_raises; raises_only_auto | intros ]
  end.

(** X3.  The recovery step always returns, starts nothing through
    [subprocess.run], and performs exactly one recovery action in every
    run: one attempt to start the installer or one call of the browser,
    never both and never none.  In particular the browser is not opened
    when the installer was found but could not be started. *)
Theorem launch_performs_exactly_one_recovery_action :
  forall (w : World) (stderr_output : string),
    (exists b, result_of (launch_stackbuilder_from_error stderr_output) w = Val b)
    /\ commands_run (log_of (launch_stackbuilder_from_error stderr_output) w) = []
    /\ List.length
         (filter recovery_action
            (log_of (launch_stackbuilder_from_error stderr_output) w)) = 1.
Proof.
  intros w err. split; [apply never_raises_val, launch_never_raises |].
  split; [apply not_a_run_commands, launch_quiet |].
  revert w. change (count_events recovery_action
                      (launch_stackbuilder_from_error err) 1).
  unfold launch_stackbuilder_from_error. repeat count_events_step.
Qed.

Lemma no_popen_in l cmd : forallb no_popen l = true -> ~ In (EvPopen cmd) l.
Proof.
  intros H Hin. rewrite forallb_forall in H. now apply H in Hin.
Qed.

(** Replace the next piece of the run whose value is still unknown by a
    name for its value, keeping that it performs no [Popen]. *)
Ltac name_value w :=
  match goal with
  | |- context [match result_of ?m w with _ => _ end] =>
      let a := fresh "a" in
      let H := fresh "Hval" in
      let Hq := fresh "Hquiet" in
      destruct (never_raises_val m w) as [a H];
      [ unfold never_raises; raises_only_auto | ];
      assert (Hq : all_events no_popen m) by all_events_auto;
      specialize (Hq w);
      rewrite ?H; run_step
  end.

(** Where in a log an event can be. *)
Ltac hunt Hin :=
  repeat
    lazymatch type of Hin with
    | In _ (_ :: _) => destruct Hin as [Hin | Hin]; [try discriminate Hin |]
    | In _ (_ ++ _) =>
        apply in_app_or in Hin as [Hin | Hin];
        [try (now apply no_popen_in in Hin) |]
    | In _ [] => destruct Hin
    end.

(** X4.  The recovery step returns [True] exactly when it started the
    installer: some [stackbuilder.exe] was handed to [Popen] and [Popen]
    did not raise.  In every other run (no installer found, or one that
    could not be started) it returns [False]. *)
Theorem launch_returns_true_iff_installer_started :
  forall (w : World) (stderr_output : string),
    result_of (launch_stackbuilder_from_error stderr_output) w = Val true
    <-> exists sp,
          In (EvPopen [sp])
             (log_of (launch_stackbuilder_from_error stderr_output) w)
          /\ popen_process w [sp] = None.
Proof.
  intros w err. unfold launch_stackbuilder_from_error.
  generalize (deduce_base_path err) as base_path. intros base_path.
  run_step. do 3 name_value w.
  destruct a1; run_step.
  - set (sp := match a0 with Some sp => sp | None => "" end).
    destruct (popen_process w [sp]) as [msg |] eqn:Hp; run_step.
    + split; [discriminate |]. intros (sp' & Hin & Hnone).
      hunt Hin. injection Hin as <-. congruence.
    + split; [intros _ | reflexivity]. exists sp. split; [| exact Hp].
      right. repeat (apply in_or_app; right). simpl. auto 12.
  - split; [discriminate |]. intros (sp' & Hin & _). hunt Hin.
Qed.

(** ** Further facts: the path cut out of the error text *)

Lemma index_ge s1 s2 : forall n m, index n s1 s2 = Some m -> n <= m.
Proof.
  induction s2 as [| b s2 IH]; intros [| n] m; simpl; try discriminate;
    try lia.
  destruct (index n s1 s2) as [k |] eqn:E; [| discriminate].
  intros [= <-]. apply IH in E. lia.
Qed.

(** A slice that starts where the three characters [c1 c2 c3] are and
    ends where [share] is found begins with [c1 c2], when these are not
    the first letter of [share]. *)
Lemma slice_between c1 c2 c3 s :
  c1 <> "s"%char -> c2 <> "s"%char ->
  forall i j,
    substring i 3 s = String c1 (String c2 (String c3 EmptyString)) ->
    substring j 5 s = "share" -> i <= j ->
    exists rest, str_slice s i j = String c1 (String c2 rest).
Proof.
  intros N1 N2. unfold str_slice.
  induction s as [| c s IH]; intros i j Hi Hj Hle.
  - destruct i; discriminate Hi.
  - destruct i as [| i].
    + simpl in Hi. destruct s as [| d s]; [discriminate Hi |].
      injection Hi as -> -> _.
      destruct j as [| [| j]].
      * simpl in Hj. injection Hj as E _. now subst.
      * simpl in Hj. injection Hj as E _. now subst.
      * simpl. eauto.
    + destruct j as [| j]; [lia |]. simpl in Hi, Hj.
      change (S j - S i) with (j - i). simpl. apply IH; auto; lia.
Qed.

Lemma rstrip_keeps chars c r :
  char_in c chars = false ->
  rstrip chars (String c r) = String c (rstrip chars r).
Proof.
  intros H. cbn [rstrip]. rewrite H. now destruct (rstrip chars r).
Qed.

Lemma strip_keeps_drive chars rest :
  char_in "C" chars = false -> char_in ":" chars = false ->
  str_strip chars (String "C" (String ":" rest))
  = String "C" (String ":" (rstrip chars rest)).
Proof.
  intros HC Hc. unfold str_strip. cbn [lstrip]. rewrite HC.
  now rewrite !rstrip_keeps.
Qed.

Lemma deduced_path_begins_with_drive err bp :
  deduce_base_path err = Some bp -> exists rest, bp = ("C:" ++ rest)%string.
Proof.
  unfold deduce_base_path.
  destruct (str_contains "PostgreSQL" err); [| discriminate].
  cbv zeta. unfold str_find.
  assert (Hend : forall c3 i,
             substring i 3 err = String "C" (String ":" (String c3 EmptyString)) ->
             match index i "share" err with
             | Some j => Some (str_strip "/\ " (str_slice err i j))
             | None => None
             end = Some bp ->
             exists rest, bp = ("C:" ++ rest)%string).
  { intros c3 i Hi. destruct (index i "share" err) as [j |] eqn:Hj;
      [| discriminate].
    intros [= <-].
    destruct (slice_between "C" ":" c3 err ltac:(discriminate)
                ltac:(discriminate) i j Hi
                (index_correct1 _ _ _ _ Hj) (index_ge _ _ _ _ Hj))
      as [rest ->].
    rewrite strip_keeps_drive by reflexivity. eexists. reflexivity. }
  destruct (index 0 "C:/" err) as [i |] eqn:E1.
  - apply (Hend "/"%char), (index_correct1 _ _ _ _ E1).
  - destruct (index 0 "C:\" err) as [i |] eqn:E2; [| discriminate].
    apply (Hend "\"%char), (index_correct1 _ _ _ _ E2).
Qed.

Lemma deduced_path_nonempty err bp :
  deduce_base_path err = Some bp -> nonempty bp = true.
Proof.
  intros H. now destruct (deduced_path_begins_with_drive err bp H) as [rest ->].
Qed.

(** X5.  The installation path the recovery step cuts out of the error
    text, when it cuts one out, is on drive C: it begins with [C:], so
    it is never empty and the test [if base_path] of the recovery step
    never fails on a path that was deduced; and a path is deduced from
    texts that name [PostgreSQL] only. *)
Theorem deduced_base_path_is_on_drive_c :
  forall (stderr_output bp : string),
    deduce_base_path stderr_output = Some bp ->
    str_contains "PostgreSQL" stderr_output = true
    /\ nonempty bp = true
    /\ exists rest, bp = ("C:" ++ rest)%string.
Proof.
  intros err bp H. split; [| split].
  - unfold deduce_base_path in H.
    now destruct (str_contains "PostgreSQL" err).
  - now apply (deduced_path_nonempty err).
  - now apply (deduced_path_begins_with_drive err).
Qed.

Lemma deduced_base_path_is_on_drive_c_witness :
  str_contains "PostgreSQL" MISSING_CONTROL_FILE = true
  /\ nonempty "C:/Program Files/PostgreSQL/17" = true
  /\ exists rest, "C:/Program Files/PostgreSQL/17"%string = ("C:" ++ rest)%string.
Proof.
  apply (deduced_base_path_is_on_drive_c MISSING_CONTROL_FILE
           "C:/Program Files/PostgreSQL/17").
  vm_compute. reflexivity.
Defined.

(** ** Further facts: which installer the recovery step starts *)

(** Running a piece of the script through, primitive by primitive. *)
Ltac run_through :=
  cbv beta iota zeta
    delta [bind ret print path_join os_path_exists glob_glob try_except
           subprocess_Popen webbrowser_open truthy negb fst snd
           is_Exception].

(** X6.  The installer named by the error text comes first.  When a
    path can be cut out of the error text and [bin/stackbuilder.exe]
    exists under it, this is the program handed to [Popen]; the search
    of the disk with [glob] is not made, and the browser is not
    opened. *)
Theorem installer_named_by_the_error_is_started :
  forall (w : World) (stderr_output bp : string),
    deduce_base_path stderr_output = Some bp ->
    nonempty (installer_under w bp) = true ->
    path_exists w (installer_under w bp) = true ->
    filter recovery_action
      (log_of (launch_stackbuilder_from_error stderr_output) w)
    = [EvPopen [installer_under w bp]]
    /\ filter is_lookup_event
         (log_of (launch_stackbuilder_from_error stderr_output) w) = [].
Proof.
  intros w err bp Hd Hne Hex.
  unfold log_of, launch_stackbuilder_from_error. rewrite Hd.
  rewrite (deduced_path_nonempty err bp Hd). run_through.
  fold (installer_under w bp).
  repeat (progress rewrite ?Hne, ?Hex; run_through).
  destruct (popen_process w [installer_under w bp]); split; reflexivity.
Qed.

Lemma installer_named_by_the_error_is_started_witness :
  filter recovery_action
    (log_of (launch_stackbuilder_from_error MISSING_CONTROL_FILE)
       world_installer_named)
  = [EvPopen [NAMED_INSTALLER]]
  /\ filter is_lookup_event
       (log_of (launch_stackbuilder_from_error MISSING_CONTROL_FILE)
          world_installer_named) = [].
Proof.
  apply (installer_named_by_the_error_is_started world_installer_named
           MISSING_CONTROL_FILE "C:/Program Files/PostgreSQL/17");
    vm_compute; reflexivity.
Defined.

(** X7.  Without an installer named by the error text, the disk is
    searched with one [glob], and of the [stackbuilder.exe] it returns
    the last one, in the order [glob] returned them, is handed to
    [Popen] when it exists; the browser is not opened. *)
Theorem installer_found_by_search_is_the_last_match :
  forall (w : World) (stderr_output : string),
    no_installer_named w stderr_output ->
    glob w STACKBUILDER_GLOB <> [] ->
    nonempty (last (glob w STACKBUILDER_GLOB) "") = true ->
    path_exists w (last (glob w STACKBUILDER_GLOB) "") = true ->
    filter recovery_action
      (log_of (launch_stackbuilder_from_error stderr_output) w)
    = [EvPopen [last (glob w STACKBUILDER_GLOB) ""]]
    /\ filter is_lookup_event
         (log_of (launch_stackbuilder_from_error stderr_output) w)
       = [EvGlob STACKBUILDER_GLOB].
Proof.
  intros w err Hno Hg Hne Hex.
  remember (glob w STACKBUILDER_GLOB) as cs eqn:G.
  destruct cs as [| c cs]; [congruence |].
  unfold log_of, launch_stackbuilder_from_error.
  destruct (deduce_base_path err) as [bp |] eqn:Hd;
    [ rewrite (deduced_path_nonempty err bp Hd); run_through;
      fold (installer_under w bp); rewrite (Hno bp Hd) | ];
    run_through; rewrite <- G;
    repeat (run_through; progress rewrite ?Hne, ?Hex);
    destruct (popen_process w [last (c :: cs) ""]); split; reflexivity.
Qed.

Lemma installer_found_by_search_is_the_last_match_witness :
  filter recovery_action
    (log_of (launch_stackbuilder_from_error MISSING_CONTROL_FILE)
       world_installer_searched)
  = [EvPopen [SEARCHED_INSTALLER]]
  /\ filter is_lookup_event
       (log_of (launch_stackbuilder_from_error MISSING_CONTROL_FILE)
          world_installer_searched)
     = [EvGlob STACKBUILDER_GLOB].
Proof.
  apply (installer_found_by_search_is_the_last_match world_installer_searched
           MISSING_CONTROL_FILE).
  - intros bp H. vm_compute in H. injection H as <-. vm_compute. reflexivity.
  - vm_compute. discriminate.
  - vm_compute. reflexivity.
  - vm_compute. reflexivity.
Defined.

(** X8.  The browser is the last resort and the step then answers
    [False]: without an installer named by the error text, and with a
    search that returns nothing or whose last match does not exist, the
    download page is opened and nothing is handed to [Popen]. *)
Theorem browser_is_the_last_resort :
  forall (w : World) (stderr_output : string),
    no_installer_named w stderr_output ->
    glob w STACKBUILDER_GLOB = []
    \/ path_exists w (last (glob w STACKBUILDER_GLOB) "") = false ->
    filter recovery_action
      (log_of (launch_stackbuilder_from_error stderr_output) w)
    = [EvWebOpen
         "https://www.postgis.net/documentation/getting_started/install_windows/"]
    /\ result_of (launch_stackbuilder_from_error stderr_output) w = Val false.
Proof.
  intros w err Hno Hg.
  remember (glob w STACKBUILDER_GLOB) as cs eqn:G.
  unfold log_of, result_of, launch_stackbuilder_from_error.
  destruct (deduce_base_path err) as [bp |] eqn:Hd;
    [ rewrite (deduced_path_nonempty err bp Hd); run_through;
      fold (installer_under w bp); rewrite (Hno bp Hd) | ];
    run_through; rewrite <- G;
    (destruct cs as [| c cs];
     [ split; reflexivity
     | destruct Hg as [Hg | Hex]; [discriminate Hg |];
       run_through; destruct (nonempty (last (c :: cs) ""));
       run_through; rewrite ?Hex; split; reflexivity ]).
Qed.

Lemma browser_is_the_last_resort_witness :
  filter recovery_action
    (log_of (launch_stackbuilder_from_error MISSING_CONTROL_FILE) world_dump)
  = [EvWebOpen INSTALL_URL]
  /\ result_of (launch_stackbuilder_from_error MISSING_CONTROL_FILE) world_dump
     = Val false.
Proof.
  apply (browser_is_the_last_resort world_dump MISSING_CONTROL_FILE).
  - intros bp H. reflexivity.
  - left. reflexivity.
Defined.

(** ** Further facts: the activator *)

(** X9.  How the activator ends.  Without psql it returns [False].  With
    psql it ends the process with [sys.exit(1)] exactly when one of the
    two statements fails for want of the extension's files, and returns
    nothing otherwise: no other exception leaves it, whatever psql does
    (a statement that cannot be started, a benign SQL error). *)
Theorem activator_outcome :
  forall w : World,
    result_of force_enable_postgis w
    = match lookup w "psql" with
      | Some psql =>
          if nonempty psql then
            if fatal w psql "CREATE EXTENSION IF NOT EXISTS postgis CASCADE;"
               || fatal w psql "CREATE EXTENSION IF NOT EXISTS postgis_topology;"
            then Exc (SystemExit 1)
            else Val None
          else Val (Some false)
      | None => Val (Some false)
      end.
Proof.
  intros w. fold SQL_POSTGIS SQL_TOPOLOGY.
  destruct (lookup w "psql") as [psql |] eqn:Hl.
  - destruct (nonempty psql) eqn:Hn.
    + destruct (activator_with_psql w psql Hl Hn) as [_ ->].
      destruct (fatal w psql SQL_POSTGIS) eqn:F1.
      * now destruct (enable_extension_fatal w psql _ F1) as [_ ->].
      * destruct (enable_extension_ok w psql _ F1) as [_ ->].
        destruct (fatal w psql SQL_TOPOLOGY) eqn:F2.
        -- now destruct (enable_extension_fatal w psql _ F2) as [_ ->].
        -- now destruct (enable_extension_ok w psql _ F2) as [_ ->].
    + apply activator_without_psql. now rewrite Hl.
  - apply activator_without_psql. now rewrite Hl.
Qed.

(** X10.  Which statements the activator runs.  None without psql.  With
    psql the first statement is always run; the second is run whatever
    the first did (success, an SQL error, psql that could not be
    started), except when the first failed for want of the extension's
    files, in which case the second is never attempted. *)
Theorem activator_statements :
  forall w : World,
    commands_run (log_of force_enable_postgis w)
    = match lookup w "psql" with
      | Some psql =>
          if nonempty psql then
            if fatal w psql "CREATE EXTENSION IF NOT EXISTS postgis CASCADE;"
            then [activation_cmd psql
                    "CREATE EXTENSION IF NOT EXISTS postgis CASCADE;"]
            else [activation_cmd psql
                    "CREATE EXTENSION IF NOT EXISTS postgis CASCADE;";
                  activation_cmd psql
                    "CREATE EXTENSION IF NOT EXISTS postgis_topology;"]
          else []
      | None => []
      end.
Proof.
  intros w. fold SQL_POSTGIS SQL_TOPOLOGY.
  assert (Hlaunch : forall err,
             commands_run (log_of (launch_stackbuilder_from_error err) w) = []).
  { intros err. apply not_a_run_commands, launch_quiet. }
  assert (Hnone : truthy (lookup w "psql") = false ->
                  commands_run (log_of force_enable_postgis w) = []).
  { intros H. destruct (activator_without_psql w H) as [-> _]. now run_step. }
  destruct (lookup w "psql") as [psql |] eqn:Hl; [| now apply Hnone].
  destruct (nonempty psql) eqn:Hn; [| now apply Hnone].
  destruct (activator_with_psql w psql Hl Hn) as [-> _].
  destruct (fatal w psql SQL_POSTGIS) eqn:F1.
  - destruct (enable_extension_fatal w psql _ F1) as [-> ->].
    run_step. now rewrite Hlaunch.
  - destruct (enable_extension_ok w psql _ F1) as [(s1 & m1 & ->) ->].
    destruct (fatal w psql SQL_TOPOLOGY) eqn:F2.
    + destruct (enable_extension_fatal w psql _ F2) as [-> _].
      run_step. now rewrite Hlaunch.
    + destruct (enable_extension_ok w psql _ F2) as [(s2 & m2 & ->) _].
      now run_step.
Qed.

(** ** Further facts: the detector *)

Lemma starts_with_is_infix {A} (eqb : A -> A -> bool) p l :
  starts_with eqb p l = true -> is_infix eqb p l = true.
Proof. destruct l; simpl; now intros ->. Qed.

Lemma sqlite_header_iff b :
  bytes_contains SQLITE_MAGIC (firstn 15 b) = bytes_startswith SQLITE_MAGIC b.
Proof.
  unfold bytes_startswith.
  rewrite <- (starts_with_firstn Byte.eqb SQLITE_MAGIC b 15) by (simpl; lia).
  destruct (bytes_contains SQLITE_MAGIC (firstn 15 b)) eqn:E.
  - symmetry. apply is_infix_tight; [apply firstn_le_length | exact E].
  - destruct (starts_with Byte.eqb SQLITE_MAGIC (firstn 15 b)) eqn:S; auto.
    apply starts_with_is_infix in S. unfold bytes_contains in E. congruence.
Qed.

(** X11.  The detector on a file it can read, exactly: PG_DUMP_BINARY if
    and only if the file starts with [PGDMP]; GEOPACKAGE if and only if
    it starts with [SQLite format 3]; SQL_SCRIPT if and only if it
    starts with neither and the upper-cased first 100 characters of its
    text have one of the three marks; UNKNOWN in every other case. *)
Theorem detector_on_readable_file :
  forall (w : World) (path : string) (b : bytes),
    file_bytes w path = Some b ->
    (detected w path = PG_DUMP_BINARY <-> bytes_startswith PGDMP b = true)
    /\ (detected w path = GEOPACKAGE <->
        bytes_startswith SQLITE_MAGIC b = true)
    /\ (detected w path = SQL_SCRIPT <->
        bytes_startswith PGDMP b = false
        /\ bytes_startswith SQLITE_MAGIC b = false
        /\ looks_like_sql (text_start w b) = true)
    /\ (detected w path = UNKNOWN <->
        bytes_startswith PGDMP b = false
        /\ bytes_startswith SQLITE_MAGIC b = false
        /\ looks_like_sql (text_start w b) = false).
Proof.
  intros w path b Hb.
  destruct (bytes_startswith PGDMP b) eqn:Hp.
  { destruct (detect_pgdmp w path b Hb Hp) as [_ ->].
    destruct (bytes_startswith SQLITE_MAGIC b) eqn:Hs.
    - rewrite <- sqlite_header_iff in Hs.
      pose proof (sqlite_header_is_not_pgdmp _ (firstn_le_length 15 b) Hs) as C.
      unfold bytes_startswith in C, Hp.
      rewrite starts_with_firstn in C by (simpl; lia). congruence.
    - repeat split; try discriminate; intuition discriminate. }
  destruct (bytes_startswith SQLITE_MAGIC b) eqn:Hs.
  { rewrite <- sqlite_header_iff in Hs.
    destruct (detect_sqlite w path b Hb Hs) as [_ ->].
    repeat split; try discriminate; intuition discriminate. }
  rewrite <- sqlite_header_iff in Hs.
  destruct (detect_text w path b Hb Hp Hs) as [_ ->].
  destruct (looks_like_sql (text_start w b));
    repeat split; try discriminate; intuition discriminate.
Qed.

Lemma detector_on_readable_file_witness :
  detected world_lowercase_script SAMPLE_INPUT = SQL_SCRIPT.
Proof.
  apply (detector_on_readable_file world_lowercase_script SAMPLE_INPUT
           (bytes_of_string "create table parcels (id integer);")).
  - vm_compute. reflexivity.
  - vm_compute. auto.
Defined.

(** X12.  The detector fails open.  A file that cannot be opened or read
    is UNKNOWN: the exception is swallowed, the detector returns, and the
    one failed attempt to open the file in binary mode is all it did (the
    file is not tried again as text). *)
Theorem detector_fails_open :
  forall (w : World) (path : string),
    file_bytes w path = None ->
    result_of (detect_file_type path) w = Val UNKNOWN
    /\ log_of (detect_file_type path) w = [EvOpen path ReadBinary].
Proof.
  intros w path Hb. destruct (detect_unreadable w path Hb) as [-> Hd].
  now rewrite detect_file_type_val, Hd.
Qed.

Lemma detector_fails_open_witness :
  result_of (detect_file_type SAMPLE_INPUT) world_unreadable_input
  = Val UNKNOWN
  /\ log_of (detect_file_type SAMPLE_INPUT) world_unreadable_input
     = [EvOpen SAMPLE_INPUT ReadBinary].
Proof.
  apply (detector_fails_open world_unreadable_input SAMPLE_INPUT).
  vm_compute. reflexivity.
Defined.

Lemma short_text_has_no_mark (t : text) :
  List.length t < 2 -> looks_like_sql t = false.
Proof.
  intros H. unfold looks_like_sql, text_contains.
  repeat match goal with
         | |- context [is_infix N.eqb ?p t] =>
             let E := fresh "E" in
             destruct (is_infix N.eqb p t) eqn:E;
             [apply is_infix_length in E; simpl in E; lia |]
         end.
  reflexivity.
Qed.

Lemma text_start_of_short_file w b :
  List.length b < 2 -> List.length (text_start w b) < 2.
Proof.
  intros H. unfold text_start, decode_text.
  destruct b as [| x [| y b]]; [simpl; lia | | simpl in H; lia].
  cbn [map utf8_decode_ignore].
  set (n := Byte.to_N x).
  destruct (n <? 128)%N eqn:E1.
  - cbn [universal_newlines].
    destruct (n =? 13)%N; cbn [firstn str_upper flat_map]; [simpl; lia |].
    rewrite E1. simpl. lia.
  - destruct (n <? 194)%N; [simpl; lia |].
    destruct (n <? 224)%N; [simpl; lia |].
    destruct (n <? 240)%N; [simpl; lia |].
    destruct (n <? 245)%N; simpl; lia.
Qed.

(** X13.  A file of fewer than two bytes, the empty file included, is
    UNKNOWN: it is read twice and none of the tests can succeed. *)
Theorem tiny_file_is_unknown :
  forall (w : World) (path : string) (b : bytes),
    file_bytes w path = Some b ->
    List.length b < 2 ->
    result_of (detect_file_type path) w = Val UNKNOWN
    /\ log_of (detect_file_type path) w
       = [EvOpen path ReadBinary; EvOpen path ReadText].
Proof.
  intros w path b Hb Hlen.
  assert (Hp : bytes_startswith PGDMP b = false).
  { destruct (bytes_startswith PGDMP b) eqn:E; auto.
    apply starts_with_length in E.
    change (List.length PGDMP) with 5 in E. lia. }
  assert (Hs : bytes_contains SQLITE_MAGIC (firstn 15 b) = false).
  { destruct (bytes_contains SQLITE_MAGIC (firstn 15 b)) eqn:E; auto.
    apply is_infix_length in E. rewrite length_firstn in E.
    change (List.length SQLITE_MAGIC) with 15 in E. lia. }
  destruct (detect_text w path b Hb Hp Hs) as [-> Hd].
  rewrite detect_file_type_val, Hd.
  now rewrite (short_text_has_no_mark _ (text_start_of_short_file w b Hlen)).
Qed.

Lemma tiny_file_is_unknown_witness :
  result_of (detect_file_type SAMPLE_INPUT) world_empty_input = Val UNKNOWN
  /\ log_of (detect_file_type SAMPLE_INPUT) world_empty_input
     = [EvOpen SAMPLE_INPUT ReadBinary; EvOpen SAMPLE_INPUT ReadText].
Proof.
  apply (tiny_file_is_unknown world_empty_input SAMPLE_INPUT []).
  - vm_compute. reflexivity.
  - simpl. lia.
Defined.

(** ** Further facts: whole runs *)

Lemma raises_only_weaken (Q Q' : exn -> bool) {A} (m : M A) :
  (forall e, Q e = true -> Q' e = true) ->
  raises_only Q m -> raises_only Q' m.
Proof. intros HQ Hm w e E. apply HQ, (Hm w e E). Qed.

Lemma never_raises_any (Q : exn -> bool) {A} (m : M A) :
  never_raises m -> raises_only Q m.
Proof. apply raises_only_weaken. discriminate. Qed.

Lemma resolve_input_file_never_raises :
  never_raises (resolve_input_file INPUT_FILENAME).
Proof. intros w e. rewrite result_resolve_input_file. discriminate. Qed.

Lemma pg_restore_raises path :
  raises_only ends_with_status_1 (import_with_pg_restore path).
Proof.
  unfold import_with_pg_restore. raises_only_auto.
  - apply (raises_only_weaken is_exit_1), force_enable_postgis_raises.
    now intros [[| [| |] |] | | |].
  - apply never_raises_any, find_executable_never_raises.
  - apply (raises_only_try _ _ _ _ is_Exception).
    + raises_only_auto. now apply raises_only_run.
    + intros e He. split; [intros _; raises_only_auto | congruence].
Qed.

Lemma psql_raises path :
  raises_only ends_with_status_1 (import_with_psql path).
Proof.
  unfold import_with_psql. raises_only_auto.
  - apply (raises_only_weaken is_exit_1), force_enable_postgis_raises.
    now intros [[| [| |] |] | | |].
  - apply never_raises_any, find_executable_never_raises.
  - apply (raises_only_try _ _ _ _ is_Exception).
    + raises_only_auto. now apply raises_only_run.
    + intros e He. split.
      * intros _. destruct e; raises_only_auto.
      * intros _. now destruct e.
Qed.

Lemma ogr2ogr_raises path :
  raises_only ends_with_status_1 (import_with_ogr2ogr path).
Proof.
  unfold import_with_ogr2ogr. raises_only_auto.
  - apply never_raises_any, find_executable_never_raises.
  - unfold subprocess_run_args. destruct (all_str _).
    + now apply raises_only_run.
    + now apply raises_only_raise.
Qed.

Lemma main_raises : raises_only ends_with_status_1 main.
Proof.
  unfold main. raises_only_auto.
  - apply never_raises_any, resolve_input_file_never_raises.
  - apply never_raises_any, detect_file_type_never_raises.
  - match goal with |- raises_only _ (dispatch ?t _) => destruct t end;
      cbn [dispatch]; raises_only_auto;
      auto using pg_restore_raises, psql_raises, ogr2ogr_raises.
  - now apply raises_only_sys_exit.
Qed.

(** X14.  The exit status of the process is 0 or 1 in every run: 0 when
    the main block runs to its end, 1 on [sys.exit(1)] and on any
    exception that nobody catches.  No other status is ever produced,
    whatever status the external tools leave. *)
Theorem exit_status_is_0_or_1 :
  forall w : World,
    exit_status (result_of main w) = 0%Z
    \/ exit_status (result_of main w) = 1%Z.
Proof.
  intros w. destruct (result_of main w) as [u | e] eqn:E; [now left |].
  right. apply main_raises in E.
  destruct e as [code | | |]; simpl in *; auto. now apply Z.eqb_eq.
Qed.

Lemma strs_eqb_refl l : strs_eqb l l = true.
Proof. now apply strs_eqb_eq. Qed.

Lemma known_command_spec path cmd env :
  known_command path cmd env = true <->
  exists tool,
    (env = [("PGPASSWORD", "postgres")]
     /\ (cmd = activation_cmd tool SQL_POSTGIS
         \/ cmd = activation_cmd tool SQL_TOPOLOGY
         \/ cmd = restore_cmd tool path
         \/ cmd = script_cmd tool path))
    \/ (env = [] /\ cmd = tool :: ogr2ogr_args path).
Proof.
  split.
  - destruct cmd as [| tool r]; [discriminate |].
    cbv beta iota delta [known_command]. intros H. exists tool.
    apply orb_true_iff in H as [H | H]; apply andb_true_iff in H as [He Hc].
    + left. split.
      * destruct env as [| [k v] [| ? ?]]; try discriminate.
        cbn [env_is_pg] in He. apply andb_true_iff in He as [Hk Hv].
        apply String.eqb_eq in Hk, Hv. now subst.
      * rewrite !orb_true_iff, !strs_eqb_eq in Hc. tauto.
    + right. split; [now destruct env | now apply strs_eqb_eq].
  - intros (tool & [(-> & H) | (-> & ->)]).
    + destruct H as [-> | [-> | [-> | ->]]];
        cbv beta iota delta [known_command activation_cmd restore_cmd
                               script_cmd];
        rewrite strs_eqb_refl, ?orb_true_r; reflexivity.
    + cbv beta iota delta [known_command]. rewrite strs_eqb_refl.
      apply orb_true_r.
Qed.

Lemma all_events_for_each_in (P : event -> bool) {A} (l : list A)
  (body : A -> M unit) :
  (forall a, In a l -> all_events P (body a)) ->
  all_events P (for_each l body).
Proof.
  induction l as [| x l IH]; intros H; cbn [for_each].
  - apply all_events_ret.
  - apply all_events_bind; [apply H; now left |].
    intros _. apply IH. intros a Ha. apply H. now right.
Qed.

Lemma known_run path cmd env check :
  known_command path cmd env = true ->
  all_events (known_event path) (subprocess_run cmd env check).
Proof. intros H. now apply all_events_run. Qed.

Lemma find_executable_known path name :
  all_events (known_event path) (find_executable name).
Proof. now apply find_executable_all_events. Qed.

Lemma activator_known path : all_events (known_event path) force_enable_postgis.
Proof.
  unfold force_enable_postgis.
  apply all_events_bind; [all_events_auto | intros _].
  apply all_events_bind; [apply find_executable_known | intros tool].
  destruct (truthy tool); [| all_events_auto].
  cbv zeta. apply all_events_bind; [| intros _; all_events_auto].
  apply all_events_for_each_in. intros sql Hsql.
  unfold enable_extension. all_events_auto.
  - apply known_run, known_command_spec. eexists. left. split; [reflexivity |].
    destruct Hsql as [<- | [<- | []]]; auto.
  - unfold launch_stackbuilder_from_error. all_events_auto.
Qed.

Lemma dispatch_known t path : all_events (known_event path) (dispatch t path).
Proof.
  destruct t; cbn [dispatch].
  - unfold import_with_pg_restore. all_events_auto;
      auto using activator_known, find_executable_known.
    apply known_run, known_command_spec. eexists. left. split; [reflexivity |].
    auto.
  - unfold import_with_ogr2ogr. all_events_auto;
      auto using find_executable_known.
    match goal with
    | |- all_events _ (subprocess_run_args (?tool :: _) _ _) =>
        destruct tool as [ogr |]
    end; unfold subprocess_run_args; cbn [all_str map ogr2ogr_args].
    + apply known_run, known_command_spec. eexists. right. split; reflexivity.
    + apply all_events_raise.
  - unfold import_with_psql. all_events_auto;
      auto using activator_known, find_executable_known.
    apply known_run, known_command_spec. eexists. left. split; [reflexivity |].
    auto.
  - all_events_auto. unfold import_with_pg_restore. all_events_auto;
      auto using activator_known, find_executable_known.
    apply known_run, known_command_spec. eexists. left. split; [reflexivity |].
    auto.
Qed.

Lemma detect_known path : all_events (known_event path) (detect_file_type path).
Proof.
  unfold detect_file_type. all_events_auto.
  all: apply all_events_open; cbn [known_event]; apply String.eqb_refl.
Qed.

(** X15.  What a run can touch.  Every command the script hands to
    [subprocess.run], in any run, is one of four: one of the two
    enable-extension statements through psql, the restore, the script
    import (these three with [PGPASSWORD] added to the environment and
    the configured host, port, user and database), or the conversion
    (with the environment as inherited); the restore, the script import
    and the conversion are on the resolved input file; and no file other
    than the resolved input is ever opened. *)
Theorem main_runs_only_known_commands :
  forall (w : World) (e : event),
    In e (log_of main w) ->
    match e with
    | EvRun cmd env =>
        exists tool,
          (env = [("PGPASSWORD", "postgres")]
           /\ (cmd = [tool; "-h"; "localhost"; "-p"; "5433"; "-U"; "postgres";
                      "-d"; "geoserver"; "-c";
                      "CREATE EXTENSION IF NOT EXISTS postgis CASCADE;"]
               \/ cmd = [tool; "-h"; "localhost"; "-p"; "5433"; "-U";
                         "postgres"; "-d"; "geoserver"; "-c";
                         "CREATE EXTENSION IF NOT EXISTS postgis_topology;"]
               \/ cmd = restore_cmd tool
                          (os_path_join w (script_dir w) "GisTPI")
               \/ cmd = script_cmd tool
                          (os_path_join w (script_dir w) "GisTPI")))
          \/ (env = []
              /\ cmd = tool :: ogr2ogr_args
                                 (os_path_join w (script_dir w) "GisTPI"))
    | EvOpen p _ => p = os_path_join w (script_dir w) "GisTPI"
    | _ => True
    end.
Proof.
  intros w e Hin.
  assert (H : known_event (resolved_path w) e = true).
  { destruct (main_input_cases w) as [Hfound | Hno].
    - rewrite (main_log w _ Hfound) in Hin.
      apply in_app_or in Hin as [Hin | Hin].
      + unfold preamble in Hin.
        destruct Hin as [<- | [<- | Hin]]; try reflexivity.
        apply in_app_or in Hin as [Hin | [<- | []]]; [| reflexivity].
        pose proof (detect_known (resolved_path w) w) as Hd.
        rewrite forallb_forall in Hd. now apply Hd.
      + pose proof (dispatch_known (detected w (resolved_path w))
                      (resolved_path w) w) as Hd.
        rewrite forallb_forall in Hd. now apply Hd.
    - unfold log_of in Hin. rewrite Hno in Hin.
      destruct Hin as [<- | [<- | [<- | []]]]; reflexivity. }
  destruct e; auto.
  - now apply String.eqb_eq in H.
  - now apply known_command_spec in H.
Qed.

Lemma main_runs_only_known_commands_witness :
  SAMPLE_INPUT
  = os_path_join world_dump (script_dir world_dump) "GisTPI"
  /\ exists tool,
       restore_cmd "/usr/bin/pg_restore" SAMPLE_INPUT
       = restore_cmd tool (os_path_join world_dump (script_dir world_dump) "GisTPI").
Proof.
  split.
  - apply (main_runs_only_known_commands world_dump
             (EvOpen SAMPLE_INPUT ReadBinary)).
    vm_compute. auto.
  - destruct (main_runs_only_known_commands world_dump
                (EvRun (restore_cmd "/usr/bin/pg_restore" SAMPLE_INPUT) pg_env))
      as (tool & [(_ & [E | [E | [E | E]]]) | (E & _)]).
    + vm_compute. auto 20.
    + discriminate E.
    + discriminate E.
    + exists tool. exact E.
    + discriminate E.
    + discriminate E.
Defined.

(** ** Further facts: how the importers end *)

Lemma pg_restore_found path w r t :
  result_of force_enable_postgis w = Val r ->
  lookup w "pg_restore" = Some t -> nonempty t = true ->
  log_of (import_with_pg_restore path) w
  = (EvPrint Stdout MSG_PASO2_RESTORE :: log_of force_enable_postgis w
       ++ log_of (find_executable "pg_restore") w
       ++ [EvPrint Stdout "Ejecutando restauración..."])
    ++ [EvRun (restore_cmd t path) pg_env;
        EvPrint Stdout (restore_epilogue (run_process w (restore_cmd t path)))].
Proof.
  intros Hr Hl Hn. unfold import_with_pg_restore. run_step. rewrite Hr.
  run_step. rewrite Hl. cbn [truthy]. rewrite Hn. run_step.
  destruct (run_process w _) as [rc err | msg]; run_step;
    rewrite <- !app_assoc; reflexivity.
Qed.

Lemma restore_dispatch_log w t path :
  restores t ->
  exists head,
    log_of (dispatch t path) w = head ++ log_of (import_with_pg_restore path) w
    /\ commands_run head = []
    /\ result_of (dispatch t path) w
       = result_of (import_with_pg_restore path) w.
Proof.
  intros [-> | ->]; cbn [dispatch].
  - now exists [].
  - exists [EvPrint Stdout MSG_UNKNOWN]. run_step. auto.
Qed.

(** X16.  The restore is fire-and-forget.  On the binary-dump path (and
    on the fallback for an unknown format), once the activator has
    returned, the run ends normally with exit status 0 whatever becomes
    of pg_restore.  When pg_restore is found, the run ends on the restore
    command followed by one line on the output, and for a pg_restore
    that ran this is the line that announces the end of the process, the
    same for a zero and for a non-zero exit status. *)
Theorem restore_outcome_is_ignored :
  forall (w : World) (path : string) (r : option bool),
    input_found w path ->
    restores (detected w path) ->
    result_of force_enable_postgis w = Val r ->
    result_of main w = Val tt
    /\ exit_status (result_of main w) = 0%Z
    /\ forall t,
         lookup w "pg_restore" = Some t -> nonempty t = true ->
         (exists pre msg,
             log_of main w
             = pre ++ [EvRun (restore_cmd t path) pg_env; EvPrint Stdout msg])
         /\ forall rc err,
              run_process w (restore_cmd t path) = Completed rc err ->
              exists pre,
                log_of main w
                = pre ++ [EvRun (restore_cmd t path) pg_env;
                          EvPrint Stdout MSG_RESTORE_DONE].
Proof.
  intros w path r Hfound Ht Hr.
  destruct (restore_dispatch_log w _ path Ht) as (head & Hlog & _ & Hres).
  rewrite (main_result w path Hfound), (main_log w path Hfound), Hres, Hlog,
    pg_restore_result, Hr.
  repeat split.
  - rewrite (pg_restore_found path w r t Hr H H0).
    eexists _, _. rewrite !app_assoc. reflexivity.
  - intros rc err Hrun. rewrite (pg_restore_found path w r t Hr H H0), Hrun.
    eexists. rewrite !app_assoc. reflexivity.
Qed.

Lemma restore_outcome_is_ignored_witness :
  result_of main world_restore_fails = Val tt
  /\ exit_status (result_of main world_restore_fails) = 0%Z
  /\ exists pre,
       log_of main world_restore_fails
       = pre ++ [EvRun (restore_cmd "/usr/bin/pg_restore" SAMPLE_INPUT) pg_env;
                 EvPrint Stdout MSG_RESTORE_DONE].
Proof.
  destruct (restore_outcome_is_ignored world_restore_fails SAMPLE_INPUT None)
    as (Hres & Hexit & Hlog).
  - vm_compute. auto.
  - left. vm_compute. reflexivity.
  - vm_compute. reflexivity.
  - repeat split; auto.
    destruct (Hlog "/usr/bin/pg_restore"%string) as [_ Hdone];
      [vm_compute; reflexivity | reflexivity |].
    apply (Hdone 1%Z "pg_restore: error: could not read the archive"%string).
    vm_compute. reflexivity.
Defined.

(** X17.  pg_restore is missing.  On the binary-dump path (and on the
    fallback), once the activator has returned and pg_restore is not
    found, the last thing the script does is to say so on the error
    stream; it has run nothing but the statements of the activator, and
    the run ends normally: the exit status is 0. *)
Theorem missing_pg_restore_is_reported :
  forall (w : World) (path : string) (r : option bool),
    input_found w path ->
    restores (detected w path) ->
    result_of force_enable_postgis w = Val r ->
    truthy (lookup w "pg_restore") = false ->
    result_of main w = Val tt
    /\ exit_status (result_of main w) = 0%Z
    /\ commands_run (log_of main w)
       = commands_run (log_of force_enable_postgis w)
    /\ exists pre, log_of main w = pre ++ [EvPrint Stderr MSG_NO_PG_RESTORE].
Proof.
  intros w path r Hfound Ht Hr Hl.
  destruct (restore_dispatch_log w _ path Ht) as (head & Hlog & Hhead & Hres).
  destruct (pg_restore_without_tool path w r Hr Hl) as [Hlog' Hres'].
  rewrite (main_result w path Hfound), (main_commands w path Hfound),
    (main_log w path Hfound), Hres, Hlog, Hres'.
  repeat split.
  - rewrite commands_run_app, Hhead, pg_restore_commands, Hr, Hl.
    cbn [app]. apply app_nil_r.
  - rewrite Hlog'. eexists.
    rewrite !app_comm_cons, !app_assoc. reflexivity.
Qed.

Lemma missing_pg_restore_is_reported_witness :
  result_of main world_dump_without_pg_restore = Val tt
  /\ exit_status (result_of main world_dump_without_pg_restore) = 0%Z
  /\ commands_run (log_of main world_dump_without_pg_restore)
     = commands_run (log_of force_enable_postgis world_dump_without_pg_restore)
  /\ exists pre,
       log_of main world_dump_without_pg_restore
       = pre ++ [EvPrint Stderr MSG_NO_PG_RESTORE].
Proof.
  apply (missing_pg_restore_is_reported world_dump_without_pg_restore
           SAMPLE_INPUT None).
  - vm_compute. auto.
  - left. vm_compute. reflexivity.
  - vm_compute. reflexivity.
  - vm_compute. reflexivity.
Defined.

(** X18.  The script path in full.  For an input classified as an SQL
    script, with psql found and neither enable-extension statement
    failing for want of the extension's files, the run executes the two
    statements and then psql on the file ([-f]), and nothing else; when
    psql leaves status 0 the last thing the run does is to announce the
    end of the import on the output, and it ends normally. *)
Theorem script_is_activated_then_imported :
  forall (w : World) (path psql err : string),
    input_found w path ->
    detected w path = SQL_SCRIPT ->
    lookup w "psql" = Some psql -> nonempty psql = true ->
    fatal w psql SQL_POSTGIS = false -> fatal w psql SQL_TOPOLOGY = false ->
    run_process w (script_cmd psql path) = Completed 0 err ->
    commands_run (log_of main w)
    = [activation_cmd psql SQL_POSTGIS; activation_cmd psql SQL_TOPOLOGY;
       [psql; "-h"; "localhost"; "-p"; "5433"; "-U"; "postgres";
        "-d"; "geoserver"; "-f"; path]]
    /\ result_of main w = Val tt
    /\ exists pre,
         log_of main w
         = pre ++ [EvRun (script_cmd psql path) pg_env;
                   EvPrint Stdout MSG_SCRIPT_DONE].
Proof.
  intros w path psql err Hfound Hd Hp Hpn H1 H2 Hrun.
  destruct (activator_runs_two w psql Hp Hpn H1 H2) as [Hc Hr].
  destruct (psql_after_activation path w None psql Hr Hp Hpn) as [Hlog Hres].
  rewrite (main_result w path Hfound), (main_commands w path Hfound),
    (main_log w path Hfound), Hd.
  cbn [dispatch].
  rewrite psql_commands, Hres, Hlog, Hrun, Hc, Hr, Hp.
  cbn [truthy found_at]. rewrite Hpn. repeat split.
  cbn [Z.eqb]. eexists.
  rewrite !app_comm_cons, !app_assoc, <- app_assoc. reflexivity.
Qed.

Lemma script_is_activated_then_imported_witness :
  commands_run (log_of main world_script)
  = [activation_cmd "/usr/bin/psql" SQL_POSTGIS;
     activation_cmd "/usr/bin/psql" SQL_TOPOLOGY;
     script_cmd "/usr/bin/psql" SAMPLE_INPUT]
  /\ result_of main world_script = Val tt
  /\ exists pre,
       log_of main world_script
       = pre ++ [EvRun (script_cmd "/usr/bin/psql" SAMPLE_INPUT) pg_env;
                 EvPrint Stdout MSG_SCRIPT_DONE].
Proof.
  apply (script_is_activated_then_imported world_script SAMPLE_INPUT
           "/usr/bin/psql" "");
    vm_compute; auto.
Defined.

(** X19.  psql that cannot be started on the script.  The script import
    catches [CalledProcessError] only: when the activator has returned,
    psql is found and the operating system refuses to start it on the
    script file, the [OSError] leaves the importer, nothing is printed
    after the attempt, and the process ends with status 1. *)
Theorem script_spawn_failure_is_not_caught :
  forall (w : World) (path : string) (r : option bool) (psql msg : string),
    result_of force_enable_postgis w = Val r ->
    lookup w "psql" = Some psql -> nonempty psql = true ->
    run_process w (script_cmd psql path) = SpawnError msg ->
    result_of (import_with_psql path) w = Exc (OSError msg)
    /\ exit_status (result_of (import_with_psql path) w) = 1%Z
    /\ exists pre,
         log_of (import_with_psql path) w
         = pre ++ [EvRun (script_cmd psql path) pg_env].
Proof.
  intros w path r psql msg Hr Hl Hn Hrun.
  destruct (psql_after_activation path w r psql Hr Hl Hn) as [-> ->].
  rewrite Hrun. repeat split.
  eexists. rewrite app_nil_r, !app_comm_cons, !app_assoc. reflexivity.
Qed.

Lemma script_spawn_failure_is_not_caught_witness :
  result_of (import_with_psql SAMPLE_INPUT) world_script_not_started
  = Exc (OSError "[Errno 13] Permission denied")
  /\ exit_status (result_of (import_with_psql SAMPLE_INPUT)
                    world_script_not_started) = 1%Z
  /\ exists pre,
       log_of (import_with_psql SAMPLE_INPUT) world_script_not_started
       = pre ++ [EvRun (script_cmd "/usr/bin/psql" SAMPLE_INPUT) pg_env].
Proof.
  apply (script_spawn_failure_is_not_caught world_script_not_started
           SAMPLE_INPUT None "/usr/bin/psql").
  - vm_compute. reflexivity.
  - vm_compute. reflexivity.
  - reflexivity.
  - vm_compute. reflexivity.
Defined.

(** X20.  The conversion is fire-and-forget too.  On the spatial-package
    path with ogr2ogr found and started, the command is the last event
    of the run, nothing is printed about its outcome, and the run ends
    normally with exit status 0 whatever status ogr2ogr leaves. *)
Theorem conversion_outcome_is_ignored :
  forall (w : World) (path ogr2ogr : string) (rc : Z) (err : string),
    input_found w path ->
    detected w path = GEOPACKAGE ->
    lookup w "ogr2ogr" = Some ogr2ogr ->
    run_process w (ogr2ogr :: ogr2ogr_args path) = Completed rc err ->
    result_of main w = Val tt
    /\ exit_status (result_of main w) = 0%Z
    /\ exists pre,
         log_of main w = pre ++ [EvRun (ogr2ogr :: ogr2ogr_args path) []].
Proof.
  intros w path ogr rc err Hfound Hd Ho Hrun.
  rewrite (main_result w path Hfound), (main_log w path Hfound), Hd.
  cbn [dispatch]. destruct (ogr2ogr_found path w ogr Ho) as [-> ->].
  rewrite Hrun. repeat split.
  eexists. rewrite !app_comm_cons, !app_assoc. reflexivity.
Qed.

Lemma conversion_outcome_is_ignored_witness :
  result_of main world_conversion_fails = Val tt
  /\ exit_status (result_of main world_conversion_fails) = 0%Z
  /\ exists pre,
       log_of main world_conversion_fails
       = pre ++ [EvRun ("/usr/bin/ogr2ogr"%string :: ogr2ogr_args SAMPLE_INPUT) []].
Proof.
  apply (conversion_outcome_is_ignored world_conversion_fails SAMPLE_INPUT
           "/usr/bin/ogr2ogr" 1 "ERROR 1: unable to connect").
  - vm_compute. auto.
  - vm_compute. reflexivity.
  - vm_compute. reflexivity.
  - vm_compute. reflexivity.
Defined.

(** X21.  An input that is there but cannot be read is not an error: the
    detector answers UNKNOWN, the warning is printed, and with psql and
    pg_restore in place and no fatal statement the file is handed to
    pg_restore after the two statements of the activator. *)
Theorem unreadable_input_is_handed_to_pg_restore :
  forall (w : World) (path psql pg_restore : string),
    input_found w path ->
    file_bytes w path = None ->
    lookup w "psql" = Some psql -> nonempty psql = true ->
    fatal w psql SQL_POSTGIS = false -> fatal w psql SQL_TOPOLOGY = false ->
    lookup w "pg_restore" = Some pg_restore -> nonempty pg_restore = true ->
    In (EvPrint Stdout MSG_UNKNOWN) (log_of main w)
    /\ commands_run (log_of main w)
       = [activation_cmd psql SQL_POSTGIS; activation_cmd psql SQL_TOPOLOGY;
          restore_cmd pg_restore path]
    /\ result_of main w = Val tt.
Proof.
  intros w path psql pg_restore Hfound Hb Hp Hpn H1 H2 Hr Hrn.
  destruct (detect_unreadable w path Hb) as [_ Hd].
  rewrite (main_result w path Hfound), (main_commands w path Hfound),
    (main_log w path Hfound), Hd.
  cbn [dispatch]. run_step.
  destruct (pg_restore_after_activation path w psql pg_restore
              Hp Hpn H1 H2 Hr Hrn) as [-> ->].
  repeat split. apply in_or_app. right. now left.
Qed.

Lemma unreadable_input_is_handed_to_pg_restore_witness :
  In (EvPrint Stdout MSG_UNKNOWN) (log_of main world_unreadable_input)
  /\ commands_run (log_of main world_unreadable_input)
     = [activation_cmd "/usr/bin/psql" SQL_POSTGIS;
        activation_cmd "/usr/bin/psql" SQL_TOPOLOGY;
        restore_cmd "/usr/bin/pg_restore" SAMPLE_INPUT]
  /\ result_of main world_unreadable_input = Val tt.
Proof.
  apply (unreadable_input_is_handed_to_pg_restore world_unreadable_input
           SAMPLE_INPUT "/usr/bin/psql" "/usr/bin/pg_restore");
    vm_compute; auto.
Defined.
